(** * Seasonal pricing of the student-accommodation booking API

    A shallow embedding of [src/main.py]: the calendar dates the pricing
    engine manipulates, the season lookup [season_for_day], the generator
    [daterange], the accumulation loop of [compute_price] and the two
    endpoints [get_quote] and [create_booking], followed by the properties
    the specification states about them.

    Python values are modelled as follows.
    - [datetime.date] is a record of year, month and day; comparison is
      lexicographic, construction validates its arguments and adding one
      day rolls over month and year.
    - [float] is IEEE 754 binary64, i.e. Rocq's primitive [float].
    - a MongoDB document is a record whose fields are [option]s: [None]
      stands for an absent key, which is what [dict.get] observes.
    - a raised exception is the [Raise] branch of [result]. *)

From Stdlib Require Import ZArith Zpower List Permutation Bool Lia String Floats.
Import ListNotations.

Local Open Scope Z_scope.

(** ** Exceptions *)

Inductive exn : Type :=
| TypeError
| ValueError
| OverflowError
| HTTPException (status_code : Z) (detail : string).

Inductive result (A : Type) : Type :=
| Ok (a : A)
| Raise (e : exn).

Arguments Ok {A} a.
Arguments Raise {A} e.

Definition bind {A B : Type} (r : result A) (k : A -> result B) : result B :=
  match r with
  | Ok a => k a
  | Raise e => Raise e
  end.

Notation "x <- r ;; k" := (bind r (fun x => k))
  (at level 61, r at next level, right associativity).

(** ** [datetime.date] *)

Record date : Type := mkdate { year : Z; month : Z; day : Z }.

Definition MINYEAR : Z := 1.
Definition MAXYEAR : Z := 9999.

Definition is_leap (y : Z) : bool :=
  (y mod 4 =? 0) && (negb (y mod 100 =? 0) || (y mod 400 =? 0)).

Definition days_in_month (y m : Z) : Z :=
  match m with
  | 1 => 31
  | 2 => if is_leap y then 29 else 28
  | 3 => 31
  | 4 => 30
  | 5 => 31
  | 6 => 30
  | 7 => 31
  | 8 => 31
  | 9 => 30
  | 10 => 31
  | 11 => 30
  | 12 => 31
  | _ => 0
  end.

(** The range checks of the [date] constructor. *)
Definition check_date_args (y m d : Z) : bool :=
  (MINYEAR <=? y) && (y <=? MAXYEAR) &&
  (1 <=? m) && (m <=? 12) &&
  (1 <=? d) && (d <=? days_in_month y m).

(** Every [date] object Python hands out satisfies the constructor's checks. *)
Definition valid_date (d : date) : Prop :=
  check_date_args (year d) (month d) (day d) = true.

(** The constructor first converts each argument to a C [int], in the
    order year, month, day: [None], which [dict.get] gives for an absent
    key, is rejected with [TypeError], an integer beyond the range of a C
    [int] with [OverflowError]. *)
Definition INT_MIN : Z := - 2 ^ 31.
Definition INT_MAX : Z := 2 ^ 31 - 1.


Definition as_c_int (v : option Z) : result Z :=
  match v with
  | None => Raise TypeError
  | Some z =>
      if (INT_MIN <=? z) && (z <=? INT_MAX) then Ok z else Raise OverflowError
  end.

(** [date(y, m, d)] where [m] and [d] come out of [dict.get]: the three
    arguments are converted, then the ranges are checked and values out of
    range give [ValueError]. *)
Definition date_new (y : Z) (m d : option Z) : result date :=
  y' <- as_c_int (Some y) ;;
  m' <- as_c_int m ;;
  d' <- as_c_int d ;;
  if check_date_args y' m' d' then Ok (mkdate y' m' d') else Raise ValueError.

Definition date_compare (a b : date) : comparison :=
  match year a ?= year b with
  | Eq => match month a ?= month b with
          | Eq => day a ?= day b
          | c => c
          end
  | c => c
  end.

Definition date_ltb (a b : date) : bool :=
  match date_compare a b with Lt => true | _ => false end.

Definition date_leb (a b : date) : bool :=
  match date_compare a b with Gt => false | _ => true end.

(** The order [a < b] as a proposition on the three fields. *)
Definition date_lt (a b : date) : Prop :=
  year a < year b \/
  (year a = year b /\
   (month a < month b \/ (month a = month b /\ day a < day b))).

(** [d + timedelta(days=1)]. *)
Definition add_one_day (d : date) : result date :=
  if day d + 1 <=? days_in_month (year d) (month d) then
    Ok (mkdate (year d) (month d) (day d + 1))
  else if month d <? 12 then
    Ok (mkdate (year d) (month d + 1) 1)
  else if year d <? MAXYEAR then
    Ok (mkdate (year d + 1) 1 1)
  else Raise OverflowError.

(** ** Documents of the catalog *)

Record season : Type := mkseason {
  name : string;
  start_month : option Z;
  start_day : option Z;
  end_month : option Z;
  end_day : option Z;
  rate : option float
}.

Record room : Type := mkroom {
  room_oid : string;
  capacity : option Z;
  multiplier : option float
}.

(** ** [season_for_day] *)

(** The body of the [for] loop of [season_for_day]: does the recurring range
    of [s], instantiated in the year of [d], contain [d]? *)
Definition season_matches (d : date) (s : season) : result bool :=
  start_this_year <- date_new (year d) (start_month s) (start_day s) ;;
  end_this_year <- date_new (year d) (end_month s) (end_day s) ;;
  if date_ltb end_this_year start_this_year then
    if date_leb start_this_year d then Ok true
    else
      end_again <- date_new (year d) (end_month s) (end_day s) ;;
      Ok (date_leb d end_again)
  else Ok (date_leb start_this_year d && date_leb d end_this_year).

Fixpoint season_for_day (d : date) (seasons : list season)
  : result (option season) :=
  match seasons with
  | [] => Ok None
  | s :: rest =>
      hit <- season_matches d s ;;
      if hit then Ok (Some s) else season_for_day d rest
  end.

(** ** [daterange] *)

(** A run of the generator: the dates it yields, in order, and the exception
    that ends it if it does not end by exhaustion. *)
Definition run : Type := (list date * option exn)%type.

(** A coarse day count, strictly increasing along [add_one_day] on calendar
    dates; it bounds the number of iterations of the [while] loop. *)
Definition day_index (d : date) : Z :=
  (year d * 12 + month d) * 31 + day d.

(** The [while cur < end] loop, unrolled at most [n] times. *)
Fixpoint daterange_loop (n : nat) (cur end_ : date) : run :=
  match n with
  | O => ([], None)
  | S n' =>
      if date_ltb cur end_ then
        match add_one_day cur with
        | Ok next =>
            let '(ds, stop) := daterange_loop n' next end_ in (cur :: ds, stop)
        | Raise e => ([cur], Some e)
        end
      else ([], None)
  end.

(** [daterange(start, end)].  The bound is never what stops the loop on
    calendar dates: see [daterange_unfold] below. *)
Definition daterange (start end_ : date) : run :=
  daterange_loop (Z.to_nat (day_index end_ - day_index start)) start end_.

(** ** [round(total, 2)] *)

(** The integer nearest to [num / den], ties going to the even one. *)
Definition round_half_even (num den : Z) : Z :=
  let q := num / den in
  match 2 * (num mod den) ?= den with
  | Lt => q
  | Gt => q + 1
  | Eq => if Z.even q then q else q + 1
  end.

(** The number of hundredths nearest to the exact value [m * 2^e]. *)
Definition hundredths (m : positive) (e : Z) : Z :=
  if 0 <=? e then 100 * Z.pos m * 2 ^ e
  else round_half_even (100 * Z.pos m) (2 ^ (- e)).

(** Mantissa and exponent of the binary64 number nearest to [num / den],
    ties going to the even mantissa; [num] and [den] are positive and the
    exponent is counted from [-1074], that of the smallest subnormal.
    [a / den] is the value in units of [2^-1074]; the exponent keeps 53
    bits of it, and a mantissa rounded up to [2^53] moves to the next
    exponent. *)
Definition nearest_scaled (num den : Z) : Z * Z :=
  let a := num * 2 ^ 1074 in
  let e := Z.max (Z.log2 (a / den) - 52) 0 in
  let m := round_half_even a (den * 2 ^ e) in
  if m =? 2 ^ 53 then (2 ^ 52, e + 1) else (m, e).

(** The float of sign [s], mantissa [m] and exponent [e - 1074]: zero when
    the mantissa is, infinite when the exponent is beyond the largest. *)
Definition pack_binary64 (s : bool) (me : Z * Z) : spec_float :=
  match fst me with
  | Z.pos p =>
      if snd me - 1074 <=? 971 then S754_finite s p (snd me - 1074)
      else S754_infinity s
  | _ => S754_zero s
  end.

(** The binary64 number nearest to [num / den], with sign [s]. *)
Definition nearest_binary64 (s : bool) (num den : Z) : spec_float :=
  pack_binary64 s (nearest_scaled num den).

(** The binary64 number nearest to [n / 100], with sign [s]. *)
Definition float_of_hundredths (s : bool) (n : Z) : float :=
  match n with
  | Z.pos _ => SF2Prim (nearest_binary64 s n 100)
  | _ => SF2Prim (S754_zero s)
  end.

(** Python's [round(x, 2)] on a float: the exact value of [x] is rounded to
    two decimal places, ties to even, and the resulting decimal is converted
    back to the nearest float.  Infinities and NaN are returned unchanged. *)
Definition round2 (x : float) : float :=
  match Prim2SF x with
  | S754_finite s m e => float_of_hundredths s (hundredths m e)
  | _ => x
  end.

(** Non-negative numbers, and those among them that are not infinite. *)
Definition nonneg (x : float) : Prop := (0 <=? x)%float = true.

Definition nonneg_real (x : float) : Prop :=
  ((0 <=? x) && (x <? infinity))%float = true.

(** ** [compute_price] *)

(** [float(room.get("multiplier", 1.0))]. *)
Definition room_multiplier (rm : room) : float :=
  match multiplier rm with
  | Some m => m
  | None => 1%float
  end.

(** [s.get("rate", 0.0) if s else 0.0].  A season returned by
    [season_for_day] carries its four boundary keys, so it is a non-empty
    dict and the conditional takes its first branch. *)
Definition base_rate (s : option season) : float :=
  match s with
  | Some s' => match rate s' with
               | Some r => r
               | None => 0%float
               end
  | None => 0%float
  end.

(** The amount one day adds to the running total. *)
Definition day_price (rm : room) (seasons : list season) (d : date)
  : result float :=
  s <- season_for_day d seasons ;;
  Ok (base_rate s * room_multiplier rm)%float.

(** The body of the [for] loop of [compute_price] over the yielded days,
    starting from the running total [total]. *)
Fixpoint accumulate (rm : room) (seasons : list season) (days : list date)
  (total : float) : result float :=
  match days with
  | [] => Ok total
  | d :: rest =>
      p <- day_price rm seasons d ;;
      accumulate rm seasons rest (total + p)%float
  end.

(** The running total when the loop over [[check_in, check_out)] ends,
    before it is rounded. *)
Definition stay_total (rm : room) (seasons : list season) (total : float)
  (check_in check_out : date) : result float :=
  let '(days, stop) := daterange check_in check_out in
  t <- accumulate rm seasons days total ;;
  match stop with
  | None => Ok t
  | Some e => Raise e
  end.

(** [compute_price(room, check_in, check_out)]; [seasons] is what
    [get_active_seasons()] reads from the catalog. *)
Definition compute_price (rm : room) (seasons : list season)
  (check_in check_out : date) : result float :=
  total <- stay_total rm seasons 0%float check_in check_out ;;
  Ok (round2 total).

(** The four boundary fields of [s] are present and name calendar dates in
    year [y]. *)
Definition season_dates_ok (y : Z) (s : season) : Prop :=
  exists sm sd em ed,
    start_month s = Some sm /\ start_day s = Some sd /\
    end_month s = Some em /\ end_day s = Some ed /\
    check_date_args y sm sd = true /\ check_date_args y em ed = true.

(** The field constraints of the [Season] model of [schemas.py]: months in
    [1..12], days in [1..31], a rate that is at least [0]. *)
Definition season_schema_ok (s : season) : bool :=
  match start_month s, start_day s, end_month s, end_day s, rate s with
  | Some sm, Some sd, Some em, Some ed, Some r =>
      (1 <=? sm) && (sm <=? 12) && (1 <=? sd) && (sd <=? 31) &&
      (1 <=? em) && (em <=? 12) && (1 <=? ed) && (ed <=? 31) &&
      (0 <=? r)%float
  | _, _, _, _, _ => false
  end.

(** ** Seed data of [seed_defaults] *)

Definition academic_year : season :=
  mkseason "Academic Year" (Some 10) (Some 1) (Some 6) (Some 30) (Some 45%float).

Definition summer : season :=
  mkseason "Summer" (Some 7) (Some 1) (Some 9) (Some 30) (Some 35%float).

Definition holiday : season :=
  mkseason "Holiday" (Some 12) (Some 20) (Some 12) (Some 31) (Some 50%float).

Definition seed_seasons : list season := [academic_year; summer; holiday].

(** The literal [1.4] denotes the binary64 number nearest to it. *)
Definition mult_1_4 : float := 0x1.6666666666666p+0%float.

(** The literal [45.12] likewise. *)
Definition price_45_12 : float := 0x1.68f5c28f5c28fp+5%float.

Definition private_room : room := mkroom "private" (Some 2) (Some 1%float).
Definition entire_apartment : room := mkroom "entire" (Some 4) (Some mult_1_4).

(** ** The endpoints [/quote] and [/book] *)

Record QuoteRequest : Type := mkQuoteRequest {
  room_id : string;
  check_in : string;
  check_out : string;
  guests : Z
}.

(** [BookingRequest] extends [QuoteRequest] with the student's contact. *)
Record BookingRequest : Type := mkBookingRequest {
  quote_fields : QuoteRequest;
  student_name : string;
  email : string;
  university : option string;
  phone : option string
}.

Record quote_response : Type := mkquote_response {
  q_room_id : string;
  q_check_in : string;
  q_check_out : string;
  q_guests : Z;
  q_total_price : float;
  q_currency : string
}.

Record booking_doc : Type := mkbooking_doc {
  doc_room_id : string;
  doc_check_in : string;
  doc_check_out : string;
  doc_guests : Z;
  doc_total_price : float;
  doc_currency : string;
  doc_status : string;
  doc_student : string * string * option string * option string;
  doc_created_at : Z;
  doc_updated_at : Z
}.

Record booking_response : Type := mkbooking_response {
  b_booking_id : string;
  b_total_price : float;
  b_currency : string;
  b_status : string
}.

(** The collections of the database the endpoints read and write. *)
Record database : Type := mkdatabase {
  rooms : list room;
  seasons : list season;
  bookings : list (string * booking_doc)
}.

Section Endpoints.

(** [datetime.strptime(s, "%Y-%m-%d").date()], the two successive readings
    of [datetime.utcnow()] a booking makes, and the identifier the store
    gives to an inserted document. *)
Variable parse_date : string -> result date.
Variable utcnow_created utcnow_updated : Z.
Variable inserted_id : database -> booking_doc -> string.

(** [next((r for r in rooms if str(r.get("_id")) == payload.room_id), None)] *)
Definition find_room (db : database) (rid : string) : option room :=
  find (fun r => String.eqb (room_oid r) rid) (rooms db).

(** [room.get("capacity", 1)] *)
Definition room_capacity (rm : room) : Z :=
  match capacity rm with
  | Some c => c
  | None => 1
  end.

Definition get_quote (db : database) (payload : QuoteRequest)
  : result quote_response :=
  match find_room db (room_id payload) with
  | None => Raise (HTTPException 404 "Room not found")
  | Some rm =>
      ci <- parse_date (check_in payload) ;;
      co <- parse_date (check_out payload) ;;
      if date_leb co ci then
        Raise (HTTPException 400 "check_out must be after check_in")
      else if (guests payload <? 1) || (room_capacity rm <? guests payload) then
        Raise (HTTPException 400 "Invalid number of guests for this room")
      else
        price <- compute_price rm (seasons db) ci co ;;
        Ok (mkquote_response (room_id payload) (check_in payload)
              (check_out payload) (guests payload) price "EUR")
  end.

Definition create_booking (db : database) (payload : BookingRequest)
  : result (booking_response * database) :=
  let q := quote_fields payload in
  match find_room db (room_id q) with
  | None => Raise (HTTPException 404 "Room not found")
  | Some rm =>
      ci <- parse_date (check_in q) ;;
      co <- parse_date (check_out q) ;;
      if date_leb co ci then
        Raise (HTTPException 400 "check_out must be after check_in")
      else if (guests q <? 1) || (room_capacity rm <? guests q) then
        Raise (HTTPException 400 "Invalid number of guests for this room")
      else
        total <- compute_price rm (seasons db) ci co ;;
        let booking :=
          mkbooking_doc (room_id q) (check_in q) (check_out q) (guests q)
            total "EUR" "confirmed"
            (student_name payload, email payload, university payload,
             phone payload)
            utcnow_created utcnow_updated in
        let oid := inserted_id db booking in
        Ok (mkbooking_response oid total "EUR" "confirmed",
            mkdatabase (rooms db) (seasons db)
              (bookings db ++ [(oid, booking)]))
  end.

End Endpoints.

(** ** [seed_defaults] *)

(** The two rooms the seeding inserts; the store gives them the identifiers
    [oid1] and [oid2]. *)
Definition seed_rooms (oid1 oid2 : string) : list room :=
  [mkroom oid1 (Some 2) (Some 1%float); mkroom oid2 (Some 4) (Some mult_1_4)].

(** [seed_defaults()]: [None] stands for [db is None]; a collection is
    filled only when it counts no document. *)
Definition seed_defaults (oid1 oid2 : string) (db : option database)
  : option database :=
  match db with
  | None => None
  | Some db0 =>
      let db1 :=
        match seasons db0 with
        | [] => mkdatabase (rooms db0) (seasons db0 ++ seed_seasons)
                  (bookings db0)
        | _ :: _ => db0
        end in
      Some match rooms db1 with
           | [] => mkdatabase (rooms db1 ++ seed_rooms oid1 oid2)
                     (seasons db1) (bookings db1)
           | _ :: _ => db1
           end
  end.

(** ** The [Room] model of [schemas.py] *)

(** The field constraints of the [Room] model: a capacity in [1..8] and a
    multiplier in [0.5 .. 3.0]; an absent field takes the model's default,
    which satisfies them. *)
Definition room_schema_ok (rm : room) : bool :=
  match capacity rm with
  | Some c => (1 <=? c) && (c <=? 8)
  | None => true
  end &&
  match multiplier rm with
  | Some m => ((0.5 <=? m) && (m <=? 3))%float
  | None => true
  end.

(** ** Notions used to state the properties of the arithmetic *)

(** Every rate present in the list is non-negative and not infinite. *)
Definition rates_nonneg_real (ss : list season) : Prop :=
  Forall (fun s => forall r, rate s = Some r -> nonneg_real r) ss.

(** Neither infinite nor NaN. *)
Definition finite_float (x : float) : Prop :=
  (abs x <? infinity)%float = true.

(** Non-negative specifications of floats: the zeros, the positive numbers
    and [+infinity]. *)
Definition sf_nonneg (x : spec_float) : Prop :=
  SFleb (S754_zero false) x = true.

(** [round2] read on the specification of its argument. *)
Definition round2_SF (x : spec_float) : spec_float :=
  match x with
  | S754_finite s m e =>
      match hundredths m e with
      | Z.pos p => nearest_binary64 s (Z.pos p) 100
      | _ => S754_zero s
      end
  | _ => x
  end.

(** The exponent a binary64 number has when its digits end at [x]. *)
Definition fexp64 (x : Z) : Z := Z.max (x - 53) (-1074).

(** ** Data of the examples *)

(** A parser that knows two dates, for the examples. *)
Definition toy_parse_date (s : string) : result date :=
  if String.eqb s "2024-11-01" then Ok (mkdate 2024 11 1)
  else if String.eqb s "2024-11-04" then Ok (mkdate 2024 11 4)
  else Raise ValueError.

Definition toy_database : database :=
  mkdatabase (seed_rooms "r1" "r2") seed_seasons [].

(** * Properties *)

(** ** The date constructor *)

Lemma check_date_args_iff (y m d : Z) :
  check_date_args y m d = true <->
  (1 <= y <= 9999 /\ 1 <= m <= 12 /\ 1 <= d <= days_in_month y m).
Proof.
  unfold check_date_args, MINYEAR, MAXYEAR.
  rewrite !andb_true_iff, !Z.leb_le. lia.
Qed.

Lemma days_in_month_bounds (y m : Z) :
  1 <= m <= 12 -> 28 <= days_in_month y m <= 31.
Proof.
  intro Hm.
  assert (Hcases : m = 1 \/ m = 2 \/ m = 3 \/ m = 4 \/ m = 5 \/ m = 6 \/
                   m = 7 \/ m = 8 \/ m = 9 \/ m = 10 \/ m = 11 \/ m = 12)
    by lia.
  repeat (destruct Hcases as [-> | Hcases]); try subst m; simpl;
    try destruct (is_leap y); lia.
Qed.

Lemma as_c_int_fits (z : Z) :
  - 2 ^ 31 <= z <= 2 ^ 31 - 1 -> as_c_int (Some z) = Ok z.
Proof.
  intro Hz. unfold as_c_int, INT_MIN, INT_MAX.
  destruct (Z.leb_spec (- 2 ^ 31) z); [ | lia ].
  destruct (Z.leb_spec z (2 ^ 31 - 1)); [ reflexivity | lia ].
Qed.

(** Arguments that pass the range checks are within the range of a C
    [int], so the constructor returns the date. *)
Lemma date_new_ok (y m d : Z) :
  check_date_args y m d = true ->
  date_new y (Some m) (Some d) = Ok (mkdate y m d).
Proof.
  intro Hc. pose proof Hc as Hb. apply check_date_args_iff in Hb.
  destruct Hb as (Hy & Hm & Hd).
  pose proof (days_in_month_bounds y m Hm) as Hdim.
  assert (H31 : 2 ^ 31 = 2147483648) by reflexivity.
  unfold date_new.
  rewrite !as_c_int_fits by lia. cbn [bind]. now rewrite Hc.
Qed.

Lemma date_new_ok_inv (y : Z) (m d : option Z) (r : date) :
  date_new y m d = Ok r -> valid_date r /\ year r = y.
Proof.
  unfold date_new, as_c_int.
  destruct ((INT_MIN <=? y) && (y <=? INT_MAX)); cbn [bind];
    [ | discriminate ].
  destruct m as [ m' | ]; [ | discriminate ].
  destruct ((INT_MIN <=? m') && (m' <=? INT_MAX)); cbn [bind];
    [ | discriminate ].
  destruct d as [ d' | ]; [ | discriminate ].
  destruct ((INT_MIN <=? d') && (d' <=? INT_MAX)); cbn [bind];
    [ | discriminate ].
  destruct (check_date_args y m' d') eqn:Hc; [ | discriminate ].
  intro H. injection H as <-. split; [ exact Hc | reflexivity ].
Qed.

(** ** The order on dates *)

Lemma date_ltb_iff (a b : date) : date_ltb a b = true <-> date_lt a b.
Proof.
  unfold date_ltb, date_compare, date_lt.
  destruct (Z.compare_spec (year a) (year b));
    destruct (Z.compare_spec (month a) (month b));
    destruct (Z.compare_spec (day a) (day b));
    split; intro; try discriminate; try reflexivity; lia.
Qed.

Lemma date_leb_iff (a b : date) :
  date_leb a b = true <-> date_lt a b \/ a = b.
Proof.
  unfold date_leb, date_compare, date_lt.
  destruct a as [ya ma da], b as [yb mb db]; simpl.
  destruct (Z.compare_spec ya yb);
    destruct (Z.compare_spec ma mb);
    destruct (Z.compare_spec da db);
    split; intro Hx; try discriminate; try reflexivity;
    try (subst; auto; fail); try (left; lia);
    destruct Hx as [Hx | Hx]; try lia; inversion Hx; lia.
Qed.

Lemma date_ltb_leb (a b : date) : date_ltb a b = negb (date_leb b a).
Proof.
  unfold date_ltb, date_leb, date_compare.
  destruct (Z.compare_spec (year a) (year b));
    destruct (Z.compare_spec (year b) (year a)); try lia;
    destruct (Z.compare_spec (month a) (month b));
    destruct (Z.compare_spec (month b) (month a)); try lia;
    destruct (Z.compare_spec (day a) (day b));
    destruct (Z.compare_spec (day b) (day a)); try lia; reflexivity.
Qed.

Lemma date_leb_refl (a : date) : date_leb a a = true.
Proof. apply date_leb_iff; now right. Qed.

Lemma date_leb_antisym (a b : date) :
  date_leb a b = true -> date_leb b a = true -> a = b.
Proof.
  rewrite !date_leb_iff. unfold date_lt.
  intros [H1 | H1] [H2 | H2]; auto; lia.
Qed.

Lemma date_ltb_irrefl (a : date) : date_ltb a a = false.
Proof. rewrite date_ltb_leb, date_leb_refl. reflexivity. Qed.

(** ** Season containment *)

Lemma season_matches_eq (d : date) (s : season) (st en : date) :
  date_new (year d) (start_month s) (start_day s) = Ok st ->
  date_new (year d) (end_month s) (end_day s) = Ok en ->
  season_matches d s =
    Ok (if date_ltb en st then date_leb st d || date_leb d en
        else date_leb st d && date_leb d en).
Proof.
  intros Hst Hen. unfold season_matches. rewrite Hst, Hen. simpl.
  destruct (date_ltb en st); [ | reflexivity ].
  destruct (date_leb st d); reflexivity.
Qed.

(** C1, as amended.  The season wraps the year end exactly when its end
    boundary, instantiated in the year of [d], is strictly before its start
    boundary: then [d] is contained iff [d >= start] or [d <= end].
    Otherwise, the end being on or after the start, [d] is contained iff
    [start <= d <= end].  A contained day makes [season_for_day] return the
    season, a day that is not contained makes it go on with the rest. *)
Theorem season_containment (d : date) (s : season) (rest : list season)
    (st en : date) :
  date_new (year d) (start_month s) (start_day s) = Ok st ->
  date_new (year d) (end_month s) (end_day s) = Ok en ->
  (date_ltb en st = true ->
     (season_matches d s = Ok true <->
      date_leb st d = true \/ date_leb d en = true)) /\
  (date_leb st en = true ->
     (season_matches d s = Ok true <->
      date_leb st d = true /\ date_leb d en = true)) /\
  (date_ltb en st = true \/ date_leb st en = true) /\
  season_for_day d (s :: rest) =
    (if (if date_ltb en st then date_leb st d || date_leb d en
         else date_leb st d && date_leb d en)
     then Ok (Some s) else season_for_day d rest).
Proof.
  intros Hst Hen.
  pose proof (season_matches_eq d s st en Hst Hen) as Hm.
  pose proof (date_ltb_leb en st) as Hneg.
  split; [ | split; [ | split ] ].
  - intro Hw. rewrite Hm, Hw. split.
    + intro Hx. injection Hx as Hb. apply orb_true_iff. exact Hb.
    + intro Hx. apply orb_true_iff in Hx. now rewrite Hx.
  - intro Hw. rewrite Hm, Hneg, Hw. simpl. split.
    + intro Hx. injection Hx as Hb. apply andb_true_iff. exact Hb.
    + intros [H1 H2]. now rewrite H1, H2.
  - rewrite Hneg. destruct (date_leb st en); auto.
  - simpl. rewrite Hm. reflexivity.
Qed.

Lemma season_containment_witness :
  season_matches (mkdate 2024 1 2) academic_year = Ok true /\
  season_for_day (mkdate 2024 8 15) [academic_year; summer] = Ok (Some summer).
Proof.
  pose proof (season_containment (mkdate 2024 1 2) academic_year []
                (mkdate 2024 10 1) (mkdate 2024 6 30) eq_refl eq_refl)
    as (Hwrap & _ & _ & _).
  pose proof (season_containment (mkdate 2024 8 15) academic_year [summer]
                (mkdate 2024 10 1) (mkdate 2024 6 30) eq_refl eq_refl)
    as (_ & _ & _ & Hnext).
  split.
  - apply Hwrap; [ reflexivity | right; reflexivity ].
  - rewrite Hnext. reflexivity.
Defined.

(** C1 as the specification words it fails when the two boundaries
    coincide: the season [15 June .. 15 June] has its end on or before its
    start and 1 January is on or before its end, yet the day is not
    contained. *)
Lemma equal_boundaries_do_not_wrap :
  let s := mkseason "one day" (Some 6) (Some 15) (Some 6) (Some 15) None in
  let d := mkdate 2024 1 1 in
  exists st en,
    date_new (year d) (start_month s) (start_day s) = Ok st /\
    date_new (year d) (end_month s) (end_day s) = Ok en /\
    date_leb en st = true /\
    (date_leb st d = true \/ date_leb d en = true) /\
    season_matches d s = Ok false /\
    season_for_day d [s] = Ok None.
Proof.
  exists (mkdate 2024 6 15), (mkdate 2024 6 15).
  repeat split; try reflexivity. right; reflexivity.
Qed.

(** C9, as amended.  A season whose end boundary is the same month and day
    as its start boundary does not wrap: in every year in which that month
    and day name a calendar date, the season contains that date and no
    other day of the year, and the containment test does not fail. *)
Theorem single_day_season (s : season) (m dd y : Z) :
  start_month s = Some m -> start_day s = Some dd ->
  end_month s = Some m -> end_day s = Some dd ->
  check_date_args y m dd = true ->
  season_matches (mkdate y m dd) s = Ok true /\
  forall d : date,
    year d = y ->
    (season_matches d s = Ok true <-> d = mkdate y m dd) /\
    (d <> mkdate y m dd -> season_matches d s = Ok false).
Proof.
  intros Hsm Hsd Hem Hed Hok.
  assert (Hm : forall d, year d = y ->
             season_matches d s =
               Ok (date_leb (mkdate y m dd) d && date_leb d (mkdate y m dd))).
  { intros d Hy.
    rewrite (season_matches_eq d s (mkdate y m dd) (mkdate y m dd)).
    - now rewrite date_ltb_irrefl.
    - rewrite Hsm, Hsd, Hy. now apply date_new_ok.
    - rewrite Hem, Hed, Hy. now apply date_new_ok. }
  split.
  - rewrite Hm by reflexivity. now rewrite date_leb_refl.
  - intros d Hy. rewrite (Hm d Hy). split; [ split | ].
    + intro Hx. injection Hx as Hb. apply andb_true_iff in Hb.
      destruct Hb as [H1 H2]. now apply date_leb_antisym.
    + intros ->. now rewrite date_leb_refl.
    + intro Hne.
      destruct (date_leb (mkdate y m dd) d) eqn:H1;
        destruct (date_leb d (mkdate y m dd)) eqn:H2; try reflexivity.
      exfalso. apply Hne. now apply date_leb_antisym.
Qed.

Lemma single_day_season_witness :
  let s := mkseason "open day" (Some 6) (Some 15) (Some 6) (Some 15) None in
  season_matches (mkdate 2024 6 15) s = Ok true /\
  season_matches (mkdate 2024 6 16) s = Ok false.
Proof.
  intro s.
  destruct (single_day_season s 6 15 2024 eq_refl eq_refl eq_refl eq_refl
              eq_refl) as [Hin Hall].
  split; [ exact Hin | ].
  apply (Hall (mkdate 2024 6 16) eq_refl). discriminate.
Defined.

(** C9 as the specification words it fails in a year in which the boundary
    names no calendar date: the season [29 February .. 29 February] meets
    the field constraints and has equal boundaries, yet on every day of
    2023 its test raises [ValueError], so it contains no day of that year;
    in 2024 it contains 29 February. *)
Lemma leap_day_season_raises :
  let s := mkseason "Leap day" (Some 2) (Some 29) (Some 2) (Some 29)
             (Some 10%float) in
  season_schema_ok s = true /\
  start_month s = end_month s /\ start_day s = end_day s /\
  season_matches (mkdate 2023 2 28) s = Raise ValueError /\
  season_for_day (mkdate 2023 2 28) [s] = Raise ValueError /\
  (forall d, year d = 2023 -> season_matches d s = Raise ValueError) /\
  season_matches (mkdate 2024 2 29) s = Ok true.
Proof.
  cbv zeta. repeat split; try reflexivity.
  intros d Hy. unfold season_matches. cbn [start_month start_day].
  rewrite Hy. reflexivity.
Qed.

(** ** First match *)

Lemma season_for_day_first (d : date) (pre post : list season) (s : season) :
  Forall (fun p => season_matches d p = Ok false) pre ->
  season_matches d s = Ok true ->
  season_for_day d (pre ++ s :: post) = Ok (Some s).
Proof.
  intros Hpre Hs. induction Hpre as [ | p pre Hp _ IH ]; simpl.
  - now rewrite Hs.
  - now rewrite Hp.
Qed.

Lemma season_for_day_none (d : date) (l : list season) :
  Forall (fun p => season_matches d p = Ok false) l ->
  season_for_day d l = Ok None.
Proof.
  intros Hl. induction Hl as [ | p l Hp _ IH ]; simpl; [ reflexivity | ].
  now rewrite Hp.
Qed.

(** C4.  When several seasons of the list contain the day, the one that
    comes first in the list is returned and its rate is the base rate of
    the day, whatever the later seasons are. *)
Theorem first_match_wins (rm : room) (d : date) (pre post : list season)
    (s : season) (r : float) :
  Forall (fun p => season_matches d p = Ok false) pre ->
  season_matches d s = Ok true ->
  rate s = Some r ->
  season_for_day d (pre ++ s :: post) = Ok (Some s) /\
  (r <- season_for_day d (pre ++ s :: post) ;; Ok (base_rate r)) = Ok r /\
  day_price rm (pre ++ s :: post) d = Ok (r * room_multiplier rm)%float.
Proof.
  intros Hpre Hs Hr.
  pose proof (season_for_day_first d pre post s Hpre Hs) as Hfirst.
  unfold day_price. rewrite Hfirst. simpl. rewrite Hr. auto.
Qed.

Lemma first_match_wins_witness :
  season_matches (mkdate 2024 12 25) holiday = Ok true /\
  season_for_day (mkdate 2024 12 25) seed_seasons = Ok (Some academic_year) /\
  day_price private_room seed_seasons (mkdate 2024 12 25) = Ok 45%float.
Proof.
  destruct (first_match_wins private_room (mkdate 2024 12 25) []
              [summer; holiday] academic_year 45%float
              (Forall_nil _) eq_refl eq_refl) as (Hs & _ & Hp).
  split; [ reflexivity | ]. split; [ exact Hs | exact Hp ].
Defined.

(** C8.  When the first season that contains the day has no rate, the day
    still resolves to that season, its base rate is [0.0] and the day adds
    what a day without any matching season adds; nothing fails and no later
    season is consulted. *)
Theorem missing_rate_is_zero (rm : room) (d : date) (pre post : list season)
    (s : season) :
  Forall (fun p => season_matches d p = Ok false) pre ->
  season_matches d s = Ok true ->
  rate s = None ->
  season_for_day d (pre ++ s :: post) = Ok (Some s) /\
  base_rate (Some s) = 0%float /\
  day_price rm (pre ++ s :: post) d = Ok (0 * room_multiplier rm)%float /\
  day_price rm (pre ++ s :: post) d = day_price rm pre d /\
  day_price rm (pre ++ s :: post) d = day_price rm [] d.
Proof.
  intros Hpre Hs Hr.
  pose proof (season_for_day_first d pre post s Hpre Hs) as Hfirst.
  pose proof (season_for_day_none d pre Hpre) as Hnone.
  unfold day_price. rewrite Hfirst, Hnone. simpl. rewrite Hr. auto.
Qed.

Lemma missing_rate_is_zero_witness :
  let free := mkseason "Free" (Some 12) (Some 1) (Some 12) (Some 31) None in
  day_price entire_apartment (summer :: free :: [holiday]) (mkdate 2024 12 25)
  = Ok 0%float.
Proof.
  intro free.
  assert (Hpre : Forall (fun p => season_matches (mkdate 2024 12 25) p
                                  = Ok false) [summer]).
  { constructor; [ reflexivity | constructor ]. }
  destruct (missing_rate_is_zero entire_apartment (mkdate 2024 12 25)
              [summer] [holiday] free Hpre eq_refl eq_refl)
    as (_ & _ & Hp & _).
  exact Hp.
Defined.

(** ** Calendar dates and their successor *)

Lemma valid_date_bounds (d : date) :
  valid_date d ->
  1 <= year d <= 9999 /\ 1 <= month d <= 12 /\
  1 <= day d <= days_in_month (year d) (month d) /\ day d <= 31.
Proof.
  unfold valid_date. rewrite check_date_args_iff. intros (Hy & Hm & Hd).
  pose proof (days_in_month_bounds (year d) (month d) Hm). lia.
Qed.

Lemma day_index_lt (a b : date) :
  valid_date a -> valid_date b -> date_lt a b -> day_index a < day_index b.
Proof.
  intros Ha Hb Hlt.
  apply valid_date_bounds in Ha. apply valid_date_bounds in Hb.
  unfold date_lt in Hlt. unfold day_index. lia.
Qed.

(** On calendar dates [add_one_day] is the successor of the order: it never
    overflows below another date, gives a calendar date, and no date lies
    strictly between a day and the next. *)
Lemma add_one_day_succ (d e : date) :
  valid_date d -> valid_date e -> date_lt d e ->
  exists n, add_one_day d = Ok n /\ valid_date n /\ date_lt d n /\
            (date_lt n e \/ n = e).
Proof.
  intros Hd He Hlt.
  pose proof (valid_date_bounds d Hd) as (Hy & Hm & Hday & _).
  pose proof (valid_date_bounds e He) as (Hye & Hme & Hdaye & _).
  unfold add_one_day, MAXYEAR.
  destruct e as [ye me de]. unfold date_lt in *. simpl in *.
  assert (Hsame : year d = ye -> month d = me ->
                  de <= days_in_month (year d) (month d))
    by (intros <- <-; lia).
  destruct (Z.leb_spec (day d + 1) (days_in_month (year d) (month d)))
    as [Hin | Hlast].
  - eexists. split; [ reflexivity | ].
    split; [ apply check_date_args_iff; simpl; lia | ].
    simpl. split; [ lia | ].
    destruct (Z.eq_dec (year d) ye) as [Ey | Ny]; [ | left; lia ].
    destruct (Z.eq_dec (month d) me) as [Em | Nm]; [ | left; lia ].
    destruct (Z.eq_dec (day d + 1) de) as [Ed | Nd]; [ | left; lia ].
    right. now subst.
  - destruct (Z.ltb_spec (month d) 12) as [Hmon | Hdec].
    + pose proof (days_in_month_bounds (year d) (month d + 1)) as Hnext.
      eexists. split; [ reflexivity | ].
      split; [ apply check_date_args_iff; simpl; lia | ].
      simpl. split; [ lia | ].
      destruct (Z.eq_dec (year d) ye) as [Ey | Ny]; [ | left; lia ].
      destruct (Z.eq_dec (month d + 1) me) as [Em | Nm].
      * destruct (Z.eq_dec 1 de) as [Ed | Nd]; [ | left; lia ].
        right. now subst.
      * left. subst ye. lia.
    + destruct (Z.ltb_spec (year d) 9999) as [Hyr | Hmax]; [ | lia ].
      eexists. split; [ reflexivity | ].
      split; [ apply check_date_args_iff; simpl; lia | ].
      simpl. split; [ lia | ].
      destruct (Z.eq_dec (year d + 1) ye) as [Ey | Ny]; [ | left; lia ].
      destruct (Z.eq_dec 1 me) as [Em | Nm]; [ | left; lia ].
      destruct (Z.eq_dec 1 de) as [Ed | Nd]; [ | left; lia ].
      right. now subst.
Qed.

Lemma date_ltb_true_lt (a b : date) : date_ltb a b = true -> date_lt a b.
Proof. apply date_ltb_iff. Qed.

Lemma date_lt_ltb (a b : date) : date_lt a b -> date_ltb a b = true.
Proof. apply date_ltb_iff. Qed.

Lemma date_lt_irrefl (a : date) : ~ date_lt a a.
Proof. unfold date_lt. lia. Qed.

Lemma date_lt_trans (a b c : date) : date_lt a b -> date_lt b c -> date_lt a c.
Proof. unfold date_lt. lia. Qed.

Lemma date_ltb_false_ge (a b : date) :
  date_ltb a b = false -> date_lt b a \/ a = b.
Proof.
  rewrite date_ltb_leb. intro H. apply negb_false_iff in H.
  apply date_leb_iff in H. destruct H; auto.
Qed.

(** ** The generator on calendar dates *)

(** Once the bound covers the distance to the end, a larger bound changes
    nothing: the loop stops because [cur < end] fails. *)
Lemma daterange_loop_enough (n : nat) :
  forall (k : nat) (cur e : date),
    valid_date cur -> valid_date e ->
    day_index e - day_index cur <= Z.of_nat n ->
    daterange_loop (n + k) cur e = daterange_loop n cur e.
Proof.
  induction n as [ | n IH ]; intros k cur e Hc He Hn.
  - assert (Hge : date_ltb cur e = false).
    { destruct (date_ltb cur e) eqn:Hlt; [ | reflexivity ].
      apply date_ltb_true_lt in Hlt.
      pose proof (day_index_lt cur e Hc He Hlt). lia. }
    destruct k; simpl; [ reflexivity | now rewrite Hge ].
  - simpl. destruct (date_ltb cur e) eqn:Hlt; [ | reflexivity ].
    apply date_ltb_true_lt in Hlt.
    destruct (add_one_day_succ cur e Hc He Hlt) as (nx & Hnx & Hv & Hcn & _).
    rewrite Hnx. rewrite IH; [ reflexivity | assumption | assumption | ].
    pose proof (day_index_lt cur nx Hc Hv Hcn). lia.
Qed.

(** The generator satisfies the equation of its [while] loop. *)
Lemma daterange_unfold (cur e : date) :
  valid_date cur -> valid_date e ->
  daterange cur e =
    if date_ltb cur e then
      match add_one_day cur with
      | Ok next => let '(ds, stop) := daterange next e in (cur :: ds, stop)
      | Raise ex => ([cur], Some ex)
      end
    else ([], None).
Proof.
  intros Hc He. unfold daterange.
  destruct (date_ltb cur e) eqn:Hlt.
  - pose proof (date_ltb_true_lt _ _ Hlt) as Hlt'.
    pose proof (day_index_lt cur e Hc He Hlt') as Hidx.
    destruct (add_one_day_succ cur e Hc He Hlt') as (nx & Hnx & Hv & Hcn & _).
    pose proof (day_index_lt cur nx Hc Hv Hcn) as Hstep.
    destruct (Z.to_nat (day_index e - day_index cur)) as [ | n ] eqn:Hn;
      [ lia | ].
    simpl. rewrite Hlt, Hnx.
    replace n with (Z.to_nat (day_index e - day_index nx)
                    + (n - Z.to_nat (day_index e - day_index nx)))%nat by lia.
    rewrite daterange_loop_enough; [ reflexivity | assumption | assumption | lia ].
  - destruct (Z.to_nat (day_index e - day_index cur)); simpl;
      [ reflexivity | now rewrite Hlt ].
Qed.

(** Induction along the days from [cur] up to [e]. *)
Lemma date_up_to_ind (e : date) (P : date -> Prop) :
  valid_date e ->
  P e ->
  (forall cur next,
      valid_date cur -> date_lt cur e ->
      add_one_day cur = Ok next -> valid_date next ->
      (date_lt next e \/ next = e) -> P next -> P cur) ->
  forall cur, valid_date cur -> (date_lt cur e \/ cur = e) -> P cur.
Proof.
  intros He Hbase Hstep.
  assert (Hall : forall (n : nat) cur,
             valid_date cur -> (date_lt cur e \/ cur = e) ->
             day_index e - day_index cur <= Z.of_nat n -> P cur).
  { induction n as [ | n IH ]; intros cur Hc Hle Hn.
    - destruct Hle as [Hlt | ->]; [ | exact Hbase ].
      pose proof (day_index_lt cur e Hc He Hlt). lia.
    - destruct Hle as [Hlt | ->]; [ | exact Hbase ].
      destruct (add_one_day_succ cur e Hc He Hlt) as (nx & Hnx & Hv & Hcn & Hne).
      apply (Hstep cur nx); try assumption.
      apply IH; try assumption.
      pose proof (day_index_lt cur nx Hc Hv Hcn). lia. }
  intros cur Hc Hle.
  apply (Hall (Z.to_nat (day_index e - day_index cur)) cur Hc Hle). lia.
Qed.

Lemma add_one_day_next (d e n : date) :
  valid_date d -> valid_date e -> date_lt d e -> add_one_day d = Ok n ->
  date_lt n e \/ n = e.
Proof.
  intros Hd He Hlt Hn.
  destruct (add_one_day_succ d e Hd He Hlt) as (n' & Hn' & _ & _ & Hle).
  rewrite Hn in Hn'. now injection Hn' as ->.
Qed.

(** The dates the generator yields between two calendar dates: exactly the
    calendar dates of the half-open range, in increasing order, and the
    generator ends by exhaustion. *)
Lemma daterange_spec (co : date) :
  valid_date co ->
  forall ci, valid_date ci -> (date_lt ci co \/ ci = co) ->
  exists days,
    daterange ci co = (days, None) /\
    Forall valid_date days /\
    (forall d, valid_date d ->
       (In d days <-> date_leb ci d = true /\ date_ltb d co = true)) /\
    Forall (fun d => date_lt ci d \/ ci = d) days /\
    NoDup days.
Proof.
  intro Hco.
  apply (date_up_to_ind co
           (fun ci => exists days,
              daterange ci co = (days, None) /\
              Forall valid_date days /\
              (forall d, valid_date d ->
                 (In d days <-> date_leb ci d = true /\ date_ltb d co = true)) /\
              Forall (fun d => date_lt ci d \/ ci = d) days /\
              NoDup days) Hco).
  - exists []. rewrite daterange_unfold, date_ltb_irrefl by assumption.
    split; [ reflexivity | ]. split; [ constructor | ].
    split; [ | split; constructor ].
    intros d _. simpl. split; [ tauto | ].
    intros [Hge Hlt]. apply date_leb_iff in Hge. apply date_ltb_iff in Hlt.
    destruct Hge as [Hge | ->].
    + exact (date_lt_irrefl _ (date_lt_trans _ _ _ Hge Hlt)).
    + exact (date_lt_irrefl _ Hlt).
  - intros cur next Hc Hlt Hnext Hv Hle (days & Hrun & Hval & Hin & Hfrom & Hnd).
    assert (Hstep : date_lt cur next).
    { destruct (add_one_day_succ cur co Hc Hco Hlt) as (n' & Hn' & _ & Hs & _).
      rewrite Hnext in Hn'. now injection Hn' as ->. }
    assert (Hafter : Forall (fun d => date_lt cur d) days).
    { eapply Forall_impl; [ | exact Hfrom ]. simpl.
      intros d [Hd | <-]; [ eapply date_lt_trans; eassumption | assumption ]. }
    exists (cur :: days).
    rewrite daterange_unfold, (date_lt_ltb _ _ Hlt), Hnext, Hrun by assumption.
    split; [ reflexivity | ].
    split; [ now constructor | ].
    split; [ | split ].
    + intros d Hd. simpl. rewrite (Hin d Hd). split.
      * intros [<- | [Hge Hltd]].
        -- split; [ apply date_leb_refl | now apply date_lt_ltb ].
        -- split; [ | assumption ].
           apply date_leb_iff. left. apply date_leb_iff in Hge.
           destruct Hge as [Hge | <-];
             [ eapply date_lt_trans; eassumption | assumption ].
      * intros [Hge Hltd]. apply date_leb_iff in Hge.
        destruct Hge as [Hge | ->]; [ right | now left ].
        split; [ | assumption ].
        apply date_leb_iff.
        exact (add_one_day_next cur d next Hc Hd Hge Hnext).
    + constructor; [ now right | ].
      eapply Forall_impl; [ | exact Hafter ]. simpl. now left.
    + constructor; [ | assumption ].
      intro Habs. rewrite Forall_forall in Hafter.
      exact (date_lt_irrefl _ (Hafter _ Habs)).
Qed.

(** The generator never ends by an exception on calendar dates. *)
Lemma daterange_exhausts (ci co : date) :
  valid_date ci -> valid_date co -> snd (daterange ci co) = None.
Proof.
  intros Hci Hco.
  destruct (date_ltb ci co) eqn:Hlt.
  - apply date_ltb_true_lt in Hlt.
    destruct (daterange_spec co Hco ci Hci (or_introl Hlt)) as (days & -> & _).
    reflexivity.
  - rewrite daterange_unfold, Hlt by assumption. reflexivity.
Qed.

(** The loop adds the price of each day it is given, in order. *)
Lemma accumulate_prices (rm : room) (ss : list season) (days : list date)
    (prices : list float) :
  Forall2 (fun d p => day_price rm ss d = Ok p) days prices ->
  forall t,
    accumulate rm ss days t = Ok (fold_left PrimFloat.add prices t).
Proof.
  intro H. induction H as [ | d p days prices Hd _ IH ]; intro t.
  - reflexivity.
  - cbn [accumulate fold_left]. rewrite Hd. cbn [bind]. apply IH.
Qed.

(** The loop stops at the first day whose price raises. *)
Lemma accumulate_raises (rm : room) (ss : list season) (pre post : list date)
    (d : date) (e : exn) :
  Forall (fun x => exists p, day_price rm ss x = Ok p) pre ->
  day_price rm ss d = Raise e ->
  forall t, accumulate rm ss (pre ++ d :: post) t = Raise e.
Proof.
  intros Hpre Hd. induction Hpre as [ | x pre [p Hx] _ IH ]; intro t.
  - cbn [app accumulate]. now rewrite Hd.
  - cbn [app accumulate]. rewrite Hx. cbn [bind]. apply IH.
Qed.

(** C5.  The days priced for a stay are exactly the calendar dates [d] with
    [check_in <= d < check_out], each once: the price returned is the
    rounded sum, from [0.0] and in order, of the day prices of these days
    and of no other, and the first of them whose price raises makes the
    pricing raise.  The check-out day is not among them, and a stay of one
    night prices the check-in day alone. *)
Theorem exclusive_checkout (rm : room) (ss : list season) (ci co : date) :
  valid_date ci -> valid_date co -> date_lt ci co ->
  exists days,
    daterange ci co = (days, None) /\
    compute_price rm ss ci co =
      (total <- accumulate rm ss days 0%float ;; Ok (round2 total)) /\
    (forall d, In d days <->
               valid_date d /\ date_leb ci d = true /\ date_ltb d co = true) /\
    NoDup days /\
    ~ In co days /\
    (add_one_day ci = Ok co -> days = [ci]) /\
    (forall prices,
       Forall2 (fun d p => day_price rm ss d = Ok p) days prices ->
       compute_price rm ss ci co =
         Ok (round2 (fold_left PrimFloat.add prices 0%float))) /\
    (forall pre d post e,
       days = pre ++ d :: post ->
       Forall (fun x => exists p, day_price rm ss x = Ok p) pre ->
       day_price rm ss d = Raise e ->
       compute_price rm ss ci co = Raise e) /\
    (add_one_day ci = Ok co ->
     compute_price rm ss ci co =
       (p <- day_price rm ss ci ;; Ok (round2 (0 + p)%float))).
Proof.
  intros Hci Hco Hlt.
  destruct (daterange_spec co Hco ci Hci (or_introl Hlt))
    as (days & Hrun & Hval & Hin & _ & Hnd).
  assert (Hprice : compute_price rm ss ci co =
                   (total <- accumulate rm ss days 0%float ;;
                    Ok (round2 total))).
  { unfold compute_price, stay_total. rewrite Hrun.
    destruct (accumulate rm ss days 0%float); reflexivity. }
  assert (Hone : add_one_day ci = Ok co -> days = [ci]).
  { intro Hnext. pose proof Hrun as Hrun'.
    rewrite daterange_unfold, (date_lt_ltb _ _ Hlt), Hnext in Hrun'
      by assumption.
    rewrite daterange_unfold, date_ltb_irrefl in Hrun' by assumption.
    now injection Hrun' as <-. }
  exists days. split; [ exact Hrun | ].
  split; [ exact Hprice | ].
  split.
  { intro d. split.
    - intro Hd. rewrite Forall_forall in Hval.
      split; [ now apply Hval | ]. apply Hin; [ now apply Hval | assumption ].
    - intros (Hd & Hrange). now apply Hin. }
  split; [ exact Hnd | ].
  split.
  { intro Habs. apply (Hin co Hco) in Habs. destruct Habs as [_ Habs].
    rewrite date_ltb_irrefl in Habs. discriminate. }
  split; [ exact Hone | ].
  split.
  { intros prices Hall. rewrite Hprice.
    now rewrite (accumulate_prices rm ss days prices Hall). }
  split.
  { intros pre d post e Hdays Hpre Hd. rewrite Hprice, Hdays.
    now rewrite (accumulate_raises rm ss pre post d e Hpre Hd). }
  intro Hnext. rewrite Hprice, (Hone Hnext). cbn [accumulate].
  destruct (day_price rm ss ci); reflexivity.
Qed.

Lemma exclusive_checkout_witness :
  exists days,
    daterange (mkdate 2024 2 28) (mkdate 2024 3 1) = (days, None) /\
    days = [mkdate 2024 2 28; mkdate 2024 2 29] /\
    ~ In (mkdate 2024 3 1) days /\
    compute_price private_room seed_seasons (mkdate 2024 2 28)
      (mkdate 2024 3 1) = Ok 90%float.
Proof.
  destruct (exclusive_checkout private_room seed_seasons
              (mkdate 2024 2 28) (mkdate 2024 3 1) eq_refl eq_refl)
    as (days & Hrun & _ & _ & _ & Hout & _ & Hsum & _).
  - unfold date_lt; simpl; lia.
  - exists days. split; [ exact Hrun | ].
    assert (Hdays : days = [mkdate 2024 2 28; mkdate 2024 2 29]).
    { pose proof Hrun as Hrun'. vm_compute in Hrun'.
      now injection Hrun' as <-. }
    split; [ exact Hdays | ]. split; [ exact Hout | ].
    rewrite (Hsum [45%float; 45%float]); [ reflexivity | ].
    rewrite Hdays. repeat constructor.
Defined.

(** ** Accumulation over consecutive stays *)

Lemma accumulate_app (rm : room) (ss : list season) (l1 l2 : list date) :
  forall t,
    accumulate rm ss (l1 ++ l2) t =
      (t1 <- accumulate rm ss l1 t ;; accumulate rm ss l2 t1).
Proof.
  induction l1 as [ | d l1 IH ]; intro t; simpl; [ reflexivity | ].
  destruct (day_price rm ss d) as [ p | e ]; simpl; [ apply IH | reflexivity ].
Qed.

(** The days of [[d1, d3)] are those of [[d1, d2)] followed by those of
    [[d2, d3)]. *)
Lemma daterange_app (d2 d3 : date) :
  valid_date d2 -> valid_date d3 -> (date_lt d2 d3 \/ d2 = d3) ->
  forall d1, valid_date d1 -> (date_lt d1 d2 \/ d1 = d2) ->
  fst (daterange d1 d3) = fst (daterange d1 d2) ++ fst (daterange d2 d3).
Proof.
  intros H2 H3 H23.
  apply (date_up_to_ind d2
           (fun d1 => fst (daterange d1 d3) =
                      fst (daterange d1 d2) ++ fst (daterange d2 d3)) H2).
  - rewrite (daterange_unfold d2 d2), date_ltb_irrefl by assumption.
    reflexivity.
  - intros cur next Hc Hlt Hnext Hv Hle IH.
    assert (Hlt3 : date_lt cur d3).
    { destruct H23 as [H23 | <-];
        [ eapply date_lt_trans; eassumption | assumption ]. }
    rewrite (daterange_unfold cur d3), (daterange_unfold cur d2) by assumption.
    rewrite (date_lt_ltb _ _ Hlt), (date_lt_ltb _ _ Hlt3), Hnext.
    destruct (daterange next d3) as [l3 s3].
    destruct (daterange next d2) as [l2 s2].
    simpl in *. now rewrite IH.
Qed.

Lemma stay_total_eq (rm : room) (ss : list season) (t : float) (a b : date) :
  valid_date a -> valid_date b ->
  stay_total rm ss t a b = accumulate rm ss (fst (daterange a b)) t.
Proof.
  intros Ha Hb. unfold stay_total.
  pose proof (daterange_exhausts a b Ha Hb) as Hex.
  destruct (daterange a b) as [days stop]. simpl in *. subst stop.
  destruct (accumulate rm ss days t); reflexivity.
Qed.

(** C3, as amended.  Pricing is additive before rounding: the running total
    of the loop over [[d1, d3)] is the running total obtained by going on
    over [[d2, d3)] from the running total of [[d1, d2)], and the price
    returned for [[d1, d3)] is that running total rounded to two decimals. *)
Theorem running_total_additive (rm : room) (ss : list season)
    (d1 d2 d3 : date) :
  valid_date d1 -> valid_date d2 -> valid_date d3 ->
  date_lt d1 d2 -> date_lt d2 d3 ->
  stay_total rm ss 0%float d1 d3 =
    (t <- stay_total rm ss 0%float d1 d2 ;; stay_total rm ss t d2 d3) /\
  compute_price rm ss d1 d3 =
    (t <- stay_total rm ss 0%float d1 d2 ;;
     t' <- stay_total rm ss t d2 d3 ;;
     Ok (round2 t')).
Proof.
  intros H1 H2 H3 H12 H23.
  assert (Hsum : stay_total rm ss 0%float d1 d3 =
                 (t <- stay_total rm ss 0%float d1 d2 ;;
                  stay_total rm ss t d2 d3)).
  { rewrite !stay_total_eq by assumption.
    rewrite (daterange_app d2 d3 H2 H3 (or_introl H23) d1 H1 (or_introl H12)).
    rewrite accumulate_app.
    destruct (accumulate rm ss (fst (daterange d1 d2)) 0%float); simpl;
      [ now rewrite stay_total_eq | reflexivity ]. }
  split; [ exact Hsum | ].
  unfold compute_price. rewrite Hsum.
  destruct (stay_total rm ss 0%float d1 d2); reflexivity.
Qed.

Lemma running_total_additive_witness :
  stay_total private_room seed_seasons 0%float (mkdate 2024 6 29) (mkdate 2024 7 3)
  = Ok 160%float /\
  compute_price private_room seed_seasons (mkdate 2024 6 29) (mkdate 2024 7 3)
  = Ok 160%float.
Proof.
  destruct (running_total_additive private_room seed_seasons
              (mkdate 2024 6 29) (mkdate 2024 7 1) (mkdate 2024 7 3)
              eq_refl eq_refl eq_refl) as [Hs Hp].
  - unfold date_lt; simpl; lia.
  - unfold date_lt; simpl; lia.
  - split; [ rewrite Hs | rewrite Hp ]; reflexivity.
Defined.

(** C3 as the specification words it fails: the returned prices are
    rounded, and the rounded prices of two nights taken one by one do not
    add up to the rounded price of the two nights taken together. *)
Lemma rounded_prices_not_additive :
  let s := mkseason "Flat" (Some 1) (Some 1) (Some 12) (Some 31)
             (Some 45.125%float) in
  let d1 := mkdate 2024 11 1 in
  let d2 := mkdate 2024 11 2 in
  let d3 := mkdate 2024 11 3 in
  date_lt d1 d2 /\ date_lt d2 d3 /\
  exists p13 p12 p23,
    compute_price private_room [s] d1 d3 = Ok p13 /\
    compute_price private_room [s] d1 d2 = Ok p12 /\
    compute_price private_room [s] d2 d3 = Ok p23 /\
    (p13 =? p12 + p23)%float = false /\
    p13 = 90.25%float /\ p12 = price_45_12 /\ p23 = price_45_12.
Proof.
  cbv zeta. split; [ unfold date_lt; simpl; lia | ].
  split; [ unfold date_lt; simpl; lia | ].
  eexists _, _, _.
  split; [ vm_compute; reflexivity | ].
  split; [ vm_compute; reflexivity | ].
  split; [ vm_compute; reflexivity | ].
  split; [ vm_compute; reflexivity | ].
  repeat split; reflexivity.
Qed.

(** ** Totality *)

Lemma season_matches_total (d : date) (s : season) :
  season_dates_ok (year d) s -> exists b, season_matches d s = Ok b.
Proof.
  intros (sm & sd & em & ed & Hsm & Hsd & Hem & Hed & Hs & He).
  eexists. apply (season_matches_eq d s (mkdate (year d) sm sd)
                    (mkdate (year d) em ed)).
  - rewrite Hsm, Hsd. now apply date_new_ok.
  - rewrite Hem, Hed. now apply date_new_ok.
Qed.

Lemma season_for_day_total (d : date) (ss : list season) :
  Forall (season_dates_ok (year d)) ss -> exists r, season_for_day d ss = Ok r.
Proof.
  intro Hss. induction Hss as [ | s ss Hs _ [r IH] ]; simpl.
  - now eexists.
  - destruct (season_matches_total d s Hs) as [b ->]. simpl.
    destruct b; eauto.
Qed.

Lemma accumulate_total (rm : room) (ss : list season) (days : list date) :
  Forall (fun d => Forall (season_dates_ok (year d)) ss) days ->
  forall t, exists total, accumulate rm ss days t = Ok total.
Proof.
  intro Hdays. induction Hdays as [ | d days Hd _ IH ]; intro t; simpl.
  - now eexists.
  - unfold day_price. destruct (season_for_day_total d ss Hd) as [r ->].
    simpl. apply IH.
Qed.

(** C2, as amended.  When every season's start and end month/day name
    calendar dates in each year the stay touches, pricing a stay with
    [check_in < check_out] returns a value, for any room and any season
    list, the empty one included; and a day no season covers is priced from
    base rate [0.0]. *)
Theorem pricing_total (rm : room) (ss : list season) (ci co : date) :
  valid_date ci -> valid_date co -> date_lt ci co ->
  (forall y, year ci <= y <= year co -> Forall (season_dates_ok y) ss) ->
  (exists total, compute_price rm ss ci co = Ok total) /\
  (forall d, season_for_day d ss = Ok None ->
             day_price rm ss d = Ok (0 * room_multiplier rm)%float).
Proof.
  intros Hci Hco Hlt Hss. split.
  - destruct (daterange_spec co Hco ci Hci (or_introl Hlt))
      as (days & Hrun & Hval & Hin & _ & _).
    assert (Hdays : Forall (fun d => Forall (season_dates_ok (year d)) ss) days).
    { rewrite Forall_forall in *. intros d Hd. apply Hss.
      destruct (proj1 (Hin d (Hval d Hd)) Hd) as [Hge Hltd].
      apply date_leb_iff in Hge. apply date_ltb_iff in Hltd.
      unfold date_lt in *. destruct Hge as [Hge | <-]; lia. }
    destruct (accumulate_total rm ss days Hdays 0%float) as [total Htotal].
    exists (round2 total).
    unfold compute_price, stay_total. rewrite Hrun, Htotal. reflexivity.
  - intros d Hnone. unfold day_price. rewrite Hnone. reflexivity.
Qed.

Lemma pricing_total_witness :
  (exists total,
     compute_price private_room [summer] (mkdate 2024 9 29) (mkdate 2024 10 2)
     = Ok total) /\
  day_price private_room [summer] (mkdate 2024 10 1) = Ok 0%float.
Proof.
  destruct (pricing_total private_room [summer]
              (mkdate 2024 9 29) (mkdate 2024 10 2) eq_refl eq_refl)
    as [Htot Hzero].
  - unfold date_lt; simpl; lia.
  - intros y Hy. simpl in Hy. assert (y = 2024) as -> by lia.
    constructor; [ | constructor ].
    exists 7, 1, 9, 30. repeat split; reflexivity.
  - split; [ exact Htot | ].
    exact (Hzero (mkdate 2024 10 1) eq_refl).
Defined.

(** C2 as the specification words it fails: month fields in [1..12], day
    fields in [1..31] and a non-negative rate do not keep the [date]
    constructor from raising.  A season ending on 31 June makes every
    quote raise [ValueError]. *)
Lemma day_beyond_month_raises :
  let s := mkseason "June" (Some 6) (Some 1) (Some 6) (Some 31)
             (Some 40%float) in
  let ci := mkdate 2024 11 1 in
  let co := mkdate 2024 11 4 in
  season_schema_ok s = true /\
  valid_date ci /\ valid_date co /\ date_lt ci co /\
  compute_price private_room [s] ci co = Raise ValueError.
Proof.
  cbv zeta. repeat split; try reflexivity.
  unfold date_lt; simpl; lia.
Qed.

(** ** The scenario of the specification *)

Lemma date_new_in_year (y m d : Z) :
  1 <= y <= 9999 -> check_date_args 2023 m d = true ->
  date_new y (Some m) (Some d) = Ok (mkdate y m d).
Proof.
  intros Hy Hc.
  apply check_date_args_iff in Hc. destruct Hc as (_ & Hm & Hd).
  assert (Hdim : days_in_month 2023 m <= days_in_month y m).
  { assert (Hcases : m = 1 \/ m = 2 \/ m = 3 \/ m = 4 \/ m = 5 \/ m = 6 \/
                     m = 7 \/ m = 8 \/ m = 9 \/ m = 10 \/ m = 11 \/ m = 12)
      by lia.
    repeat (destruct Hcases as [-> | Hcases]); try subst m; simpl;
      try destruct (is_leap y); lia. }
  apply date_new_ok. apply check_date_args_iff. lia.
Qed.

Lemma date_compare_same_year (y m1 d1 m2 d2 : Z) :
  date_compare (mkdate y m1 d1) (mkdate y m2 d2) =
    match m1 ?= m2 with Eq => d1 ?= d2 | c => c end.
Proof. unfold date_compare. simpl. now rewrite Z.compare_refl. Qed.

Lemma academic_year_in_november (y d : Z) :
  1 <= y <= 9999 -> 1 <= d <= 30 ->
  season_for_day (mkdate y 11 d) [academic_year; summer] =
    Ok (Some academic_year).
Proof.
  intros Hy Hd. simpl.
  rewrite (season_matches_eq (mkdate y 11 d) academic_year
             (mkdate y 10 1) (mkdate y 6 30));
    try (apply date_new_in_year; [ assumption | reflexivity ]).
  unfold date_ltb, date_leb. rewrite !date_compare_same_year. reflexivity.
Qed.

(** C6.  With the seasons Academic Year (1 October to 30 June, rate 45.0)
    and Summer (1 July to 30 September, rate 35.0) and a room of multiplier
    1.4, the three nights from 1 to 4 November of any year cost 189.0. *)
Theorem november_stay_costs_189 (y : Z) :
  1 <= y <= 9999 ->
  compute_price entire_apartment [academic_year; summer]
    (mkdate y 11 1) (mkdate y 11 4) = Ok 189%float.
Proof.
  intro Hy.
  assert (Hv : forall d, 1 <= d <= 30 -> valid_date (mkdate y 11 d)).
  { intros d Hd. apply check_date_args_iff. simpl. lia. }
  assert (Hrun : daterange (mkdate y 11 1) (mkdate y 11 4) =
                 ([mkdate y 11 1; mkdate y 11 2; mkdate y 11 3], None)).
  { rewrite daterange_unfold by (apply Hv; lia).
    unfold date_ltb at 1. rewrite date_compare_same_year.
    unfold add_one_day at 1. simpl.
    rewrite daterange_unfold by (apply Hv; lia).
    unfold date_ltb at 1. rewrite date_compare_same_year.
    unfold add_one_day at 1. simpl.
    rewrite daterange_unfold by (apply Hv; lia).
    unfold date_ltb at 1. rewrite date_compare_same_year.
    unfold add_one_day at 1. simpl.
    rewrite daterange_unfold by (apply Hv; lia).
    unfold date_ltb at 1. rewrite date_compare_same_year.
    reflexivity. }
  unfold compute_price, stay_total. rewrite Hrun.
  unfold accumulate, day_price.
  rewrite !academic_year_in_november by lia.
  reflexivity.
Qed.

Lemma november_stay_costs_189_witness :
  compute_price entire_apartment [academic_year; summer]
    (mkdate 2024 11 1) (mkdate 2024 11 4) = Ok 189%float.
Proof. apply (november_stay_costs_189 2024). lia. Defined.

(** ** Quote and booking *)

Section QuoteAndBook.

Variable parse_date : string -> result date.
Variable utcnow_created utcnow_updated : Z.
Variable inserted_id : database -> booking_doc -> string.

(** C10.  On the same room and season data and the same request fields,
    [/book] raises exactly the error [/quote] raises (room not found,
    dates out of order, guests outside [1 .. capacity]), and when
    [/quote] answers, [/book] answers with the same [total_price], which
    is also the price it stores. *)
Theorem booking_prices_as_quote (db : database) (payload : BookingRequest) :
  match get_quote parse_date db (quote_fields payload),
        create_booking parse_date utcnow_created utcnow_updated inserted_id db
      payload with
  | Raise e1, Raise e2 => e1 = e2
  | Ok q, Ok (b, db') =>
      b_total_price b = q_total_price q /\
      rooms db' = rooms db /\ seasons db' = seasons db /\
      exists oid doc,
        bookings db' = bookings db ++ [(oid, doc)] /\
        doc_total_price doc = q_total_price q
  | _, _ => False
  end.
Proof.
  unfold get_quote, create_booking.
  destruct (find_room db (room_id (quote_fields payload))) as [ rm | ];
    [ | reflexivity ].
  destruct (parse_date (check_in (quote_fields payload))) as [ ci | e ];
    simpl; [ | reflexivity ].
  destruct (parse_date (check_out (quote_fields payload))) as [ co | e ];
    simpl; [ | reflexivity ].
  destruct (date_leb co ci); [ reflexivity | ].
  destruct ((guests (quote_fields payload) <? 1)
            || (room_capacity rm <? guests (quote_fields payload)));
    [ reflexivity | ].
  destruct (compute_price rm (seasons db) ci co) as [ price | e ];
    simpl; [ | reflexivity ].
  repeat split. eexists _, _. split; reflexivity.
Qed.

End QuoteAndBook.

(** * Binary64 arithmetic of the running total *)

(** ** Rounding to the nearest integer *)

Lemma round_half_even_bounds (a b : Z) :
  0 < b -> a / b <= round_half_even a b <= a / b + 1.
Proof.
  intro Hb. unfold round_half_even.
  destruct (2 * (a mod b) ?= b); try destruct (Z.even (a / b)); lia.
Qed.

Lemma round_half_even_exact (a b : Z) :
  0 < b -> round_half_even (a * b) b = a.
Proof.
  intro Hb. unfold round_half_even.
  rewrite Z.div_mul, Z.mod_mul by lia.
  rewrite Z.mul_0_r.
  destruct (Z.compare_spec 0 b); lia.
Qed.

Lemma round_half_even_mono (a a' b : Z) :
  0 < b -> a <= a' -> round_half_even a b <= round_half_even a' b.
Proof.
  intros Hb Ha.
  pose proof (Z.div_le_mono a a' b Hb Ha) as Hq.
  pose proof (Z.div_mod a b ltac:(lia)) as Hdiv.
  pose proof (Z.div_mod a' b ltac:(lia)) as Hdiv'.
  pose proof (Z.mod_pos_bound a b Hb) as Hr.
  pose proof (Z.mod_pos_bound a' b Hb) as Hr'.
  destruct (Z.eq_dec (a / b) (a' / b)) as [Heq | Hne].
  - unfold round_half_even. rewrite <- Heq.
    assert (Hrr : a mod b <= a' mod b) by nia.
    destruct (Z.compare_spec (2 * (a mod b)) b);
      destruct (Z.compare_spec (2 * (a' mod b)) b);
      try destruct (Z.even (a / b)); lia.
  - pose proof (round_half_even_bounds a b Hb).
    pose proof (round_half_even_bounds a' b Hb). lia.
Qed.

Lemma round_half_even_scale (a b c : Z) :
  0 < b -> 0 < c -> round_half_even (a * c) (b * c) = round_half_even a b.
Proof.
  intros Hb Hc. unfold round_half_even.
  rewrite Z.div_mul_cancel_r by lia.
  rewrite Z.mul_mod_distr_r by lia.
  replace (2 * (a mod b * c)) with (2 * (a mod b) * c) by ring.
  destruct (Z.compare_spec (2 * (a mod b) * c) (b * c));
    destruct (Z.compare_spec (2 * (a mod b)) b); try reflexivity; nia.
Qed.

(** ** Binary digits *)

Lemma digits2_pos_log2 (p : positive) :
  Z.pos (digits2_pos p) = Z.log2 (Z.pos p) + 1.
Proof.
  induction p as [ p IH | p IH | ]; simpl digits2_pos.
  - rewrite Pos2Z.inj_succ, IH. change (Z.pos p~1) with (2 * Z.pos p + 1).
    rewrite Z.log2_succ_double by lia. lia.
  - rewrite Pos2Z.inj_succ, IH. change (Z.pos p~0) with (2 * Z.pos p).
    rewrite Z.log2_double by lia. lia.
  - reflexivity.
Qed.

Lemma Zdigits2_log2 (z : Z) : 0 < z -> Zdigits2 z = Z.log2 z + 1.
Proof.
  destruct z as [ | p | p ]; try lia. intros _. apply digits2_pos_log2.
Qed.

Lemma log2_bounds (z : Z) : 0 < z -> 2 ^ Z.log2 z <= z < 2 ^ (Z.log2 z + 1).
Proof. intro Hz. pose proof (Z.log2_spec z Hz). now rewrite <- Z.add_1_r in H. Qed.

Lemma log2_lt_iff (z k : Z) : 0 < z -> 0 <= k -> (Z.log2 z < k <-> z < 2 ^ k).
Proof. intros Hz Hk. symmetry. apply Z.log2_lt_pow2. assumption. Qed.

Lemma log2_ge_iff (z k : Z) : 0 < z -> 0 <= k -> (k <= Z.log2 z <-> 2 ^ k <= z).
Proof. intros Hz Hk. symmetry. apply Z.log2_le_pow2. assumption. Qed.

(** ** The nearest binary64 number *)

Lemma pow2_pos (k : Z) : 0 <= k -> 0 < 2 ^ k.
Proof. intro Hk. apply Z.pow_pos_nonneg; lia. Qed.

Lemma div_lt_inv (a d k : Z) : 0 < d -> a / d < k -> a < d * k.
Proof.
  intros Hd Hk.
  pose proof (Z.div_mod a d ltac:(lia)). pose proof (Z.mod_pos_bound a d Hd).
  nia.
Qed.

(** Before a mantissa of [2^53] is moved to the next exponent. *)
Lemma nearest_raw (num den : Z) :
  0 < num -> 0 < den ->
  let a := num * 2 ^ 1074 in
  let e := Z.max (Z.log2 (a / den) - 52) 0 in
  let m := round_half_even a (den * 2 ^ e) in
  0 <= e /\ 0 <= m <= 2 ^ 53 /\ (1 <= e -> 2 ^ 52 <= m).
Proof.
  intros Hnum Hden a e m.
  assert (Ha : 0 < a) by (unfold a; pose proof (pow2_pos 1074); lia).
  assert (He : 0 <= e) by (unfold e; lia).
  pose proof (pow2_pos e He) as Hpe.
  assert (Hd : 0 < den * 2 ^ e) by lia.
  assert (Hq : 0 <= a / den) by (apply Z.div_pos; lia).
  split; [ exact He | ]. split; [ split | ].
  - pose proof (round_half_even_bounds a (den * 2 ^ e) Hd) as [Hlo _].
    assert (0 <= a / (den * 2 ^ e)) by (apply Z.div_pos; lia). unfold m. lia.
  - assert (Hlt : a / den < 2 ^ (e + 53)).
    { destruct (Z.eq_dec (a / den) 0) as [-> | Hnz].
      - apply pow2_pos. lia.
      - apply Z.log2_lt_pow2; unfold e; lia. }
    assert (Hup : a <= 2 ^ 53 * (den * 2 ^ e)).
    { rewrite Z.pow_add_r in Hlt by lia.
      assert (a < den * (2 ^ e * 2 ^ 53)); [ | lia ].
      apply div_lt_inv; lia. }
    unfold m. rewrite <- (round_half_even_exact (2 ^ 53) (den * 2 ^ e) Hd).
    apply round_half_even_mono; assumption.
  - intro H1.
    assert (Hlog : Z.log2 (a / den) = e + 52) by (unfold e in *; lia).
    assert (Hqpos : 0 < a / den).
    { destruct (Z.eq_dec (a / den) 0) as [Hz | Hnz]; [ | lia ].
      rewrite Hz in Hlog. simpl in Hlog. lia. }
    pose proof (log2_bounds (a / den) Hqpos) as [Hlo _].
    rewrite Hlog, Z.pow_add_r in Hlo by lia.
    assert (Hge : 2 ^ 52 * (den * 2 ^ e) <= a).
    { pose proof (Z.mul_div_le a den Hden). nia. }
    unfold m. rewrite <- (round_half_even_exact (2 ^ 52) (den * 2 ^ e) Hd).
    apply round_half_even_mono; assumption.
Qed.

Lemma nearest_scaled_spec (num den : Z) :
  0 < num -> 0 < den ->
  0 <= snd (nearest_scaled num den) /\
  0 <= fst (nearest_scaled num den) < 2 ^ 53 /\
  (1 <= snd (nearest_scaled num den) -> 2 ^ 52 <= fst (nearest_scaled num den)).
Proof.
  intros Hnum Hden.
  pose proof (nearest_raw num den Hnum Hden) as (He & Hm & Hnormal).
  unfold nearest_scaled. cbv zeta in *.
  destruct (Z.eqb_spec (round_half_even (num * 2 ^ 1074)
              (den * 2 ^ Z.max (Z.log2 (num * 2 ^ 1074 / den) - 52) 0))
              (2 ^ 53)) as [Heq | Hne]; cbn [fst snd].
  - split; [ lia | ]. split; [ | lia ]. split; [ | reflexivity ].
    apply Z.lt_le_incl, pow2_pos. lia.
  - split; [ lia | ]. split; [ lia | exact Hnormal ].
Qed.

Lemma nearest_scaled_mono (n1 n2 den : Z) :
  0 < n1 -> n1 <= n2 -> 0 < den ->
  snd (nearest_scaled n1 den) < snd (nearest_scaled n2 den) \/
  (snd (nearest_scaled n1 den) = snd (nearest_scaled n2 den) /\
   fst (nearest_scaled n1 den) <= fst (nearest_scaled n2 den)).
Proof.
  intros H1 H12 Hden.
  assert (H2 : 0 < n2) by lia.
  pose proof (nearest_raw n1 den H1 Hden) as (He1 & Hm1 & Hn1).
  pose proof (nearest_raw n2 den H2 Hden) as (He2 & Hm2 & Hn2).
  unfold nearest_scaled. cbv zeta in *.
  set (a1 := n1 * 2 ^ 1074) in *. set (a2 := n2 * 2 ^ 1074) in *.
  set (e1 := Z.max (Z.log2 (a1 / den) - 52) 0) in *.
  set (e2 := Z.max (Z.log2 (a2 / den) - 52) 0) in *.
  set (m1 := round_half_even a1 (den * 2 ^ e1)) in *.
  set (m2 := round_half_even a2 (den * 2 ^ e2)) in *.
  assert (Ha : a1 <= a2) by (unfold a1, a2; pose proof (pow2_pos 1074); nia).
  assert (Hq : a1 / den <= a2 / den) by (apply Z.div_le_mono; lia).
  assert (He : e1 <= e2).
  { pose proof (Z.log2_le_mono _ _ Hq). unfold e1, e2. lia. }
  assert (Hsame : e1 = e2 -> m1 <= m2).
  { intro Heq. unfold m1, m2. rewrite Heq.
    apply round_half_even_mono; [ | exact Ha ].
    pose proof (pow2_pos e2 He2). lia. }
  assert (H52 : 2 ^ 52 < 2 ^ 53) by (apply Z.pow_lt_mono_r; lia).
  destruct (Z.eqb_spec m1 (2 ^ 53)) as [E1 | N1];
    destruct (Z.eqb_spec m2 (2 ^ 53)) as [E2 | N2]; cbn [fst snd]; lia.
Qed.

Lemma pack_binary64_valid (s : bool) (m e : Z) :
  0 <= e -> 0 <= m < 2 ^ 53 -> (1 <= e -> 2 ^ 52 <= m) ->
  valid_binary (pack_binary64 s (m, e)) = true.
Proof.
  intros He Hm Hnormal. unfold pack_binary64. cbn [fst snd].
  destruct m as [ | p | p ]; try reflexivity.
  destruct (Z.leb_spec (e - 1074) 971) as [Hfit | Hover]; [ | reflexivity ].
  cbn [valid_binary]. unfold bounded, canonical_mantissa, fexp, SpecFloat.emin.
  rewrite digits2_pos_log2.
  change prec with 53. change emax with 1024.
  assert (Hlog : Z.log2 (Z.pos p) < 53) by (apply Z.log2_lt_pow2; lia).
  apply andb_true_iff. split; [ apply Z.eqb_eq | apply Z.leb_le; lia ].
  destruct (Z.eq_dec e 0) as [-> | Hnz]; [ lia | ].
  assert (52 <= Z.log2 (Z.pos p)) by (apply Z.log2_le_pow2; lia). lia.
Qed.

Lemma nearest_binary64_valid (s : bool) (num den : Z) :
  0 < num -> 0 < den ->
  valid_binary (nearest_binary64 s num den) = true.
Proof.
  intros Hnum Hden.
  pose proof (nearest_scaled_spec num den Hnum Hden) as (He & Hm & Hnormal).
  unfold nearest_binary64.
  destruct (nearest_scaled num den) as [m e]. now apply pack_binary64_valid.
Qed.

Lemma pos_compare_cont_le (p q : positive) :
  (p <= q)%positive -> Pos.compare_cont Eq p q <> Gt.
Proof. intro H. exact H. Qed.

Lemma pack_binary64_leb (m1 e1 m2 e2 : Z) :
  0 <= m1 -> 0 <= m2 -> (1 <= e2 -> 2 ^ 52 <= m2) -> 0 <= e1 ->
  e1 < e2 \/ (e1 = e2 /\ m1 <= m2) ->
  SFleb (pack_binary64 false (m1, e1)) (pack_binary64 false (m2, e2)) = true.
Proof.
  intros Hm1 Hm2 Hnormal He1 Hle.
  assert (H52 : 0 < 2 ^ 52) by (apply pow2_pos; lia).
  unfold pack_binary64. cbn [fst snd].
  destruct m1 as [ | p1 | p1 ]; try lia.
  - destruct m2 as [ | p2 | p2 ]; try lia; [ reflexivity | ].
    destruct (e2 - 1074 <=? 971); reflexivity.
  - destruct m2 as [ | p2 | p2 ]; try lia.
    destruct (Z.leb_spec (e1 - 1074) 971) as [Hf1 | Ho1];
      destruct (Z.leb_spec (e2 - 1074) 971) as [Hf2 | Ho2];
      try reflexivity; try lia.
    unfold SFleb, SFcompare.
    destruct (Z.compare_spec (e1 - 1074) (e2 - 1074)) as [Heq | Hlt | Hgt];
      try reflexivity; try lia.
    assert (Hp : (p1 <= p2)%positive) by lia.
    destruct (Pos.compare_cont Eq p1 p2) eqn:Hc; try reflexivity.
    exfalso. exact (Hp Hc).
Qed.

(** The nearest binary64 number grows with the numerator. *)
Lemma nearest_binary64_mono (n1 n2 den : Z) :
  0 < n1 -> n1 <= n2 -> 0 < den ->
  SFleb (nearest_binary64 false n1 den) (nearest_binary64 false n2 den) = true.
Proof.
  intros H1 H12 Hden.
  pose proof (nearest_scaled_spec n1 den H1 Hden) as (He1 & Hm1 & _).
  pose proof (nearest_scaled_spec n2 den ltac:(lia) Hden) as (He2 & Hm2 & Hn2).
  pose proof (nearest_scaled_mono n1 n2 den H1 H12 Hden) as Hle.
  unfold nearest_binary64.
  destruct (nearest_scaled n1 den) as [m1 e1].
  destruct (nearest_scaled n2 den) as [m2 e2]. cbn [fst snd] in *.
  apply pack_binary64_leb; lia.
Qed.

(** ** Valid binary64 numbers and their order *)

Lemma bounded_spec (m : positive) (e : Z) :
  bounded prec emax m e = true ->
  -1074 <= e <= 971 /\ Z.pos m < 2 ^ 53 /\ (-1074 < e -> 2 ^ 52 <= Z.pos m).
Proof.
  unfold bounded, canonical_mantissa, fexp, SpecFloat.emin.
  change prec with 53. change emax with 1024.
  rewrite digits2_pos_log2. intro H.
  apply andb_true_iff in H. destruct H as [Hc He].
  apply Z.eqb_eq in Hc. apply Z.leb_le in He.
  split; [ lia | ]. split.
  - apply Z.log2_lt_pow2; lia.
  - intro Hn. apply Z.log2_le_pow2; lia.
Qed.

Lemma SFleb_finite (m1 m2 : positive) (e1 e2 : Z) :
  SFleb (S754_finite false m1 e1) (S754_finite false m2 e2) = true ->
  e1 < e2 \/ (e1 = e2 /\ Z.pos m1 <= Z.pos m2).
Proof.
  unfold SFleb, SFcompare.
  destruct (Z.compare_spec e1 e2) as [Heq | Hlt | Hgt]; try discriminate.
  - intro H. right. split; [ exact Heq | ].
    change (Pos.compare_cont Eq m1 m2) with (Pos.compare m1 m2) in H.
    destruct (Pos.compare_spec m1 m2); try discriminate; lia.
  - intros _. now left.
Qed.

(** The order of two valid positive numbers is that of their values,
    counted in units of [2^-1074]. *)
Lemma finite_leb_value (m1 m2 : positive) (e1 e2 : Z) :
  bounded prec emax m1 e1 = true -> bounded prec emax m2 e2 = true ->
  e1 < e2 \/ (e1 = e2 /\ Z.pos m1 <= Z.pos m2) ->
  Z.pos m1 * 2 ^ (e1 + 1074) <= Z.pos m2 * 2 ^ (e2 + 1074).
Proof.
  intros H1 H2 Hle.
  apply bounded_spec in H1. apply bounded_spec in H2.
  destruct H1 as (He1 & Hm1 & _). destruct H2 as (He2 & _ & Hn2).
  destruct Hle as [Hlt | [-> Hm]].
  - pose proof (pow2_pos (e1 + 1074) ltac:(lia)) as Hp1.
    assert (Hpow : 2 * 2 ^ (e1 + 1074) <= 2 ^ (e2 + 1074)).
    { rewrite <- Z.pow_succ_r by lia. apply Z.pow_le_mono_r; lia. }
    assert (H53 : 2 ^ 53 = 2 * 2 ^ 52) by reflexivity.
    specialize (Hn2 ltac:(lia)). nia.
  - pose proof (pow2_pos (e2 + 1074) ltac:(lia)). nia.
Qed.

(** ** Hundredths *)

Lemma hundredths_scaled (m : positive) (e : Z) :
  -1074 <= e ->
  hundredths m e =
    round_half_even (100 * Z.pos m * 2 ^ (e + 1074)) (2 ^ 1074).
Proof.
  intro He. unfold hundredths.
  destruct (Z.leb_spec 0 e) as [Hpos | Hneg].
  - rewrite Z.pow_add_r by lia. rewrite Z.mul_assoc.
    now rewrite round_half_even_exact by (apply pow2_pos; lia).
  - replace (2 ^ 1074) with (2 ^ (- e) * 2 ^ (e + 1074)).
    + rewrite round_half_even_scale; [ reflexivity | | ]; apply pow2_pos; lia.
    + rewrite <- Z.pow_add_r by lia. f_equal. lia.
Qed.

Lemma hundredths_nonneg (m : positive) (e : Z) : 0 <= hundredths m e.
Proof.
  unfold hundredths. destruct (Z.leb_spec 0 e).
  - pose proof (pow2_pos e H). nia.
  - pose proof (pow2_pos (- e) ltac:(lia)) as Hp.
    pose proof (round_half_even_bounds (100 * Z.pos m) (2 ^ (- e)) Hp).
    assert (0 <= 100 * Z.pos m / 2 ^ (- e)) by (apply Z.div_pos; lia). lia.
Qed.

Lemma hundredths_mono (m1 m2 : positive) (e1 e2 : Z) :
  bounded prec emax m1 e1 = true -> bounded prec emax m2 e2 = true ->
  e1 < e2 \/ (e1 = e2 /\ Z.pos m1 <= Z.pos m2) ->
  hundredths m1 e1 <= hundredths m2 e2.
Proof.
  intros H1 H2 Hle.
  pose proof (finite_leb_value m1 m2 e1 e2 H1 H2 Hle) as Hv.
  apply bounded_spec in H1. apply bounded_spec in H2.
  rewrite !hundredths_scaled by lia.
  apply round_half_even_mono; [ apply pow2_pos; lia | ].
  rewrite <- !Z.mul_assoc. apply Z.mul_le_mono_nonneg_l; lia.
Qed.

(** ** [round2] on specifications *)

Lemma SFleb_zero_pack (s : bool) (me : Z * Z) :
  SFleb (S754_zero s) (pack_binary64 false me) = true.
Proof.
  unfold pack_binary64. destruct (fst me); try reflexivity.
  destruct (snd me - 1074 <=? 971); reflexivity.
Qed.

Lemma SFleb_pack_infinity (me : Z * Z) :
  SFleb (pack_binary64 false me) (S754_infinity false) = true.
Proof.
  unfold pack_binary64. destruct (fst me); try reflexivity.
  destruct (snd me - 1074 <=? 971); reflexivity.
Qed.

Lemma round2_SF_valid (x : spec_float) :
  valid_binary x = true -> valid_binary (round2_SF x) = true.
Proof.
  destruct x as [ s | s | | s m e ]; try (intros; reflexivity).
  intros _. unfold round2_SF.
  destruct (hundredths m e) eqn:Hn; try reflexivity.
  apply nearest_binary64_valid; lia.
Qed.

Lemma round2_SF_mono (x y : spec_float) :
  valid_binary x = true -> valid_binary y = true ->
  sf_nonneg x -> SFleb x y = true ->
  SFleb (round2_SF x) (round2_SF y) = true.
Proof.
  intros Hx Hy Hpos Hle. unfold sf_nonneg in Hpos.
  destruct x as [ sx | [ | ] | | [ | ] mx ex ]; try discriminate;
    destruct y as [ sy | [ | ] | | [ | ] my ey ]; try discriminate;
    try reflexivity.
  - unfold round2_SF. destruct (hundredths my ey); try reflexivity.
    apply SFleb_zero_pack.
  - unfold round2_SF. destruct (hundredths mx ex); try reflexivity.
    apply SFleb_pack_infinity.
  - cbn [valid_binary] in Hx, Hy.
    pose proof (hundredths_mono mx my ex ey Hx Hy (SFleb_finite _ _ _ _ Hle))
      as Hn.
    pose proof (hundredths_nonneg mx ex) as H0.
    unfold round2_SF.
    destruct (hundredths mx ex) as [ | p1 | p1 ] eqn:E1; try lia.
    + destruct (hundredths my ey); try reflexivity. apply SFleb_zero_pack.
    + destruct (hundredths my ey) as [ | p2 | p2 ] eqn:E2; try lia.
      apply nearest_binary64_mono; lia.
Qed.

(** ** Shifting right *)

Lemma shr_1_m (mrs : shr_record) :
  0 <= shr_m mrs -> shr_m (shr_1 mrs) = shr_m mrs / 2.
Proof.
  destruct mrs as [m r s]. cbn [shr_m]. intro Hm.
  destruct m as [ | [ p | p | ] | p ]; cbn [shr_1 shr_m].
  - reflexivity.
  - apply (Z.div_unique _ _ _ 1); lia.
  - apply (Z.div_unique _ _ _ 0); lia.
  - reflexivity.
  - lia.
Qed.

Lemma iter_pos_shr_m (p : positive) :
  forall mrs, 0 <= shr_m mrs ->
    shr_m (iter_pos shr_1 p mrs) = shr_m mrs / 2 ^ Z.pos p.
Proof.
  induction p as [ p IH | p IH | ]; intros mrs Hm; cbn [iter_pos].
  - assert (H1 : 0 <= shr_m (shr_1 mrs))
      by (rewrite shr_1_m by assumption; apply Z.div_pos; lia).
    assert (H2 : 0 <= shr_m (iter_pos shr_1 p (shr_1 mrs)))
      by (rewrite IH by assumption; apply Z.div_pos;
          [ assumption | apply pow2_pos; lia ]).
    rewrite IH, IH, shr_1_m by assumption.
    pose proof (pow2_pos (Z.pos p) ltac:(lia)).
    rewrite !Z.div_div by lia.
    f_equal. replace (Z.pos p~1) with (1 + (Z.pos p + Z.pos p)) by lia.
    rewrite !Z.pow_add_r by lia. reflexivity.
  - assert (H2 : 0 <= shr_m (iter_pos shr_1 p mrs))
      by (rewrite IH by assumption; apply Z.div_pos;
          [ assumption | apply pow2_pos; lia ]).
    rewrite IH, IH by assumption.
    pose proof (pow2_pos (Z.pos p) ltac:(lia)).
    rewrite !Z.div_div by lia.
    f_equal. replace (Z.pos p~0) with (Z.pos p + Z.pos p) by lia.
    rewrite !Z.pow_add_r by lia. reflexivity.
  - now apply shr_1_m.
Qed.

Lemma shr_spec (mrs : shr_record) (e n : Z) :
  0 <= shr_m mrs ->
  shr_m (fst (shr mrs e n)) = shr_m mrs / 2 ^ Z.max n 0 /\
  snd (shr mrs e n) = e + Z.max n 0.
Proof.
  intro Hm. destruct n as [ | p | p ]; cbn [shr fst snd].
  - rewrite Z.div_1_r. lia.
  - rewrite iter_pos_shr_m by assumption.
    replace (Z.max (Z.pos p) 0) with (Z.pos p) by lia. lia.
  - replace (Z.max (Z.neg p) 0) with 0 by lia. rewrite Z.div_1_r. lia.
Qed.

Lemma fexp_64 (x : Z) : fexp prec emax x = fexp64 x.
Proof. reflexivity. Qed.

Lemma shr_fexp_spec (m e : Z) (l : location) :
  0 <= m ->
  shr_m (fst (shr_fexp prec emax m e l)) =
    m / 2 ^ Z.max (fexp64 (Zdigits2 m + e) - e) 0 /\
  snd (shr_fexp prec emax m e l) = e + Z.max (fexp64 (Zdigits2 m + e) - e) 0.
Proof.
  intro Hm. unfold shr_fexp. rewrite fexp_64.
  assert (Hrec : shr_m (shr_record_of_loc m l) = m)
    by (destruct l as [ | [ | | ] ]; reflexivity).
  pose proof (shr_spec (shr_record_of_loc m l) e
                (fexp64 (Zdigits2 m + e) - e)) as Hs.
  rewrite Hrec in Hs. apply Hs. exact Hm.
Qed.

Lemma round_nearest_even_bounds (m : Z) (l : location) :
  m <= round_nearest_even m l <= m + 1.
Proof.
  destruct l as [ | [ | | ] ]; cbn [round_nearest_even];
    try destruct (Z.even m); lia.
Qed.

(** The shape of a rounded result: mantissa [m2] at exponent [e2], where
    [m1] is the mantissa after the first shift and the rounding. *)
Lemma binary_round_aux_shape (s : bool) (m e : Z) (l : location) :
  0 <= m ->
  exists m1 m2 e1 e2,
    e1 = e + Z.max (fexp64 (Zdigits2 m + e) - e) 0 /\
    m / 2 ^ (e1 - e) <= m1 <= m / 2 ^ (e1 - e) + 1 /\
    e2 = e1 + Z.max (fexp64 (Zdigits2 m1 + e1) - e1) 0 /\
    m2 = m1 / 2 ^ (e2 - e1) /\
    binary_round_aux prec emax s m e l =
      match m2 with
      | Z0 => S754_zero s
      | Z.pos p => if e2 <=? 971 then S754_finite s p e2 else S754_infinity s
      | Z.neg _ => S754_nan
      end.
Proof.
  intro Hm. unfold binary_round_aux.
  pose proof (shr_fexp_spec m e l Hm) as [Hm1 He1].
  destruct (shr_fexp prec emax m e l) as [mrs' e'] eqn:E1.
  cbn [fst snd] in Hm1, He1.
  set (m1 := round_nearest_even (shr_m mrs') (loc_of_shr_record mrs')).
  pose proof (round_nearest_even_bounds (shr_m mrs') (loc_of_shr_record mrs'))
    as Hrne. fold m1 in Hrne.
  assert (H0 : 0 <= shr_m mrs')
    by (rewrite Hm1; apply Z.div_pos; [ assumption | apply pow2_pos; lia ]).
  pose proof (shr_fexp_spec m1 e' loc_Exact ltac:(lia)) as [Hm2 He2].
  destruct (shr_fexp prec emax m1 e' loc_Exact) as [mrs'' e''] eqn:E2.
  cbn [fst snd] in Hm2, He2.
  exists m1, (shr_m mrs''), e', e''.
  split; [ exact He1 | ].
  split; [ replace (e' - e) with (Z.max (fexp64 (Zdigits2 m + e) - e) 0) by lia;
           rewrite <- Hm1; exact Hrne | ].
  split; [ exact He2 | ].
  split; [ rewrite Hm2; f_equal; f_equal; lia | ].
  reflexivity.
Qed.

(** A rounded non-negative mantissa keeps the sign it is given. *)
Lemma binary_round_aux_sign (s : bool) (m e : Z) (l : location) :
  0 <= m ->
  match binary_round_aux prec emax s m e l with
  | S754_nan => False
  | S754_zero s' | S754_infinity s' | S754_finite s' _ _ => s' = s
  end.
Proof.
  intro Hm.
  destruct (binary_round_aux_shape s m e l Hm)
    as (m1 & m2 & e1 & e2 & He1 & Hm1 & He2 & Hm2 & ->).
  assert (0 <= m / 2 ^ (e1 - e))
    by (apply Z.div_pos; [ assumption | apply pow2_pos; lia ]).
  assert (0 <= m2)
    by (subst m2; apply Z.div_pos; [ lia | apply pow2_pos; lia ]).
  destruct m2; try lia; try reflexivity.
  destruct (e2 <=? 971); reflexivity.
Qed.

Lemma div_pow2_lt (a k j : Z) :
  0 <= k -> 0 <= j -> a < 2 ^ (k + j) -> a / 2 ^ k < 2 ^ j.
Proof.
  intros Hk Hj Ha. apply Z.div_lt_upper_bound; [ now apply pow2_pos | ].
  now rewrite <- Z.pow_add_r.
Qed.

Lemma div_pow2_ge (a k j : Z) :
  0 <= k -> 0 <= j -> 2 ^ (k + j) <= a -> 2 ^ j <= a / 2 ^ k.
Proof.
  intros Hk Hj Ha. apply Z.div_le_lower_bound; [ now apply pow2_pos | ].
  now rewrite <- Z.pow_add_r.
Qed.

(** Rounding a mantissa that is at least the valid number [mt * 2^et]
    gives a number that is at least [mt * 2^et]. *)
Lemma binary_round_aux_lower (M mt : positive) (ez et : Z) (l : location) :
  bounded prec emax mt et = true -> ez <= et ->
  Z.pos mt * 2 ^ (et - ez) <= Z.pos M ->
  match binary_round_aux prec emax false (Z.pos M) ez l with
  | S754_infinity false => True
  | S754_finite false m' e' => et < e' \/ (et = e' /\ Z.pos mt <= Z.pos m')
  | _ => False
  end.
Proof.
  intros Hb Hez HM.
  destruct (binary_round_aux_shape false (Z.pos M) ez l ltac:(lia))
    as (m1 & m2 & e1 & e2 & He1 & Hm1 & He2 & Hm2 & ->).
  apply bounded_spec in Hb. destruct Hb as (Het & Hmt & Hnormal).
  rewrite Zdigits2_log2 in He1 by lia. unfold fexp64 in He1.
  set (L := Z.log2 (Z.pos M)) in *.
  assert (HL : 0 <= L) by apply Z.log2_nonneg.
  pose proof (log2_bounds (Z.pos M) ltac:(lia)) as [HMlo HMhi]. fold L in HMlo, HMhi.
  assert (HLt : Z.log2 (Z.pos mt) + (et - ez) <= L).
  { unfold L. rewrite Z.add_comm, <- Z.log2_mul_pow2 by lia.
    apply Z.log2_le_mono. exact HM. }
  assert (He1ge : et <= e1).
  { destruct (Z.eq_dec et (-1074)) as [-> | Hne]; [ lia | ].
    assert (52 <= Z.log2 (Z.pos mt)) by (apply Z.log2_le_pow2; lia). lia. }
  assert (Hk : 0 <= e1 - ez) by lia.
  assert (HX53 : Z.pos M / 2 ^ (e1 - ez) < 2 ^ 53).
  { apply div_pow2_lt; try lia.
    eapply Z.lt_le_trans; [ exact HMhi | ]. apply Z.pow_le_mono_r; lia. }
  assert (Hm1lo : 1 <= m1 /\
                  (et < e1 \/ (et = e1 /\ Z.pos mt <= m1)) /\
                  (et < e1 -> 2 ^ 52 <= m1)).
  { destruct (Z.eq_dec e1 et) as [Heq | Hne].
    - assert (Z.pos mt <= Z.pos M / 2 ^ (e1 - ez)).
      { apply Z.div_le_lower_bound; [ apply pow2_pos; lia | ].
        rewrite Heq. lia. }
      split; [ lia | ]. split; [ right; split; lia | lia ].
    - assert (Hshift : e1 - ez = L - 52) by lia.
      assert (2 ^ 52 <= Z.pos M / 2 ^ (e1 - ez)).
      { apply div_pow2_ge; try lia. rewrite Hshift.
        replace (L - 52 + 52) with L by lia. exact HMlo. }
      pose proof (pow2_pos 52 ltac:(lia)).
      split; [ lia | ]. split; [ left; lia | lia ]. }
  destruct Hm1lo as (Hm1pos & Hm1ge & Hm1norm).
  assert (Hm1hi : m1 <= 2 ^ 53) by lia.
  rewrite Zdigits2_log2 in He2 by lia. unfold fexp64 in He2.
  assert (H5253 : 2 ^ 53 = 2 * 2 ^ 52) by reflexivity.
  pose proof (pow2_pos 52 ltac:(lia)) as H52.
  assert (Hfinal : 0 < m2 /\ (et < e2 \/ (et = e2 /\ Z.pos mt <= m2))).
  { destruct (Z.eq_dec m1 (2 ^ 53)) as [Htop | Hlow].
    - assert (Hlog : Z.log2 m1 = 53)
        by (rewrite Htop; exact (Z.log2_pow2 53 ltac:(lia))).
      assert (He21 : e2 - e1 = 1) by lia.
      rewrite He21, Htop in Hm2.
      assert (m2 = 2 ^ 52) by (subst m2; reflexivity).
      split; [ lia | left; lia ].
    - assert (Hlog : Z.log2 m1 < 53) by (apply Z.log2_lt_pow2; lia).
      assert (He21 : e2 - e1 = 0) by lia.
      rewrite He21, Z.div_1_r in Hm2. subst m2.
      split; [ lia | ].
      destruct Hm1ge as [Hlt | [Heq Hge]]; [ left; lia | right; lia ]. }
  destruct Hfinal as [Hpos Hge].
  destruct m2 as [ | p | p ]; try lia.
  destruct (e2 <=? 971); [ exact Hge | exact I ].
Qed.

Lemma shl_align_fst (m : positive) (e e' : Z) :
  e' <= e -> Z.pos (fst (shl_align m e e')) = Z.pos m * 2 ^ (e - e').
Proof.
  intro He. unfold shl_align.
  destruct (e' - e) as [ | d | d ] eqn:Hd; cbn [fst].
  - replace (e - e') with 0 by lia. lia.
  - lia.
  - change (Pos.iter xO m d) with (shift_pos d m).
    rewrite shift_pos_correct, Z.pow_pos_fold.
    replace (e - e') with (Z.pos d) by lia. lia.
Qed.

Lemma SFleb_finite_intro (m1 m2 : positive) (e1 e2 : Z) :
  e1 < e2 \/ (e1 = e2 /\ Z.pos m1 <= Z.pos m2) ->
  SFleb (S754_finite false m1 e1) (S754_finite false m2 e2) = true.
Proof.
  intro H. unfold SFleb, SFcompare.
  destruct (Z.compare_spec e1 e2) as [Heq | Hlt | Hgt]; try reflexivity;
    try lia.
  change (Pos.compare_cont Eq m1 m2) with (Pos.compare m1 m2).
  destruct (Pos.compare_spec m1 m2); try reflexivity; lia.
Qed.

Lemma SFleb_refl_nonneg (x : spec_float) : sf_nonneg x -> SFleb x x = true.
Proof.
  unfold sf_nonneg.
  destruct x as [ s | [ | ] | | [ | ] m e ]; try discriminate; try reflexivity.
  intros _. apply SFleb_finite_intro. right. lia.
Qed.

(** Adding a non-negative number does not make a non-negative number
    smaller. *)
Lemma SFadd_lower (x y : spec_float) :
  valid_binary x = true -> valid_binary y = true ->
  sf_nonneg x -> sf_nonneg y ->
  SFleb x (SFadd prec emax x y) = true.
Proof.
  intros Hx Hy Hpx Hpy. unfold sf_nonneg in *.
  destruct x as [ sx | [ | ] | | [ | ] mx ex ]; try discriminate;
    destruct y as [ sy | [ | ] | | [ | ] my ey ]; try discriminate;
    try reflexivity.
  - destruct sx, sy; reflexivity.
  - cbn [SFadd]. now apply SFleb_refl_nonneg.
  - cbn [valid_binary] in Hx, Hy. cbn [SFadd cond_Zopp].
    set (ez := Z.min ex ey).
    pose proof (shl_align_fst mx ex ez ltac:(unfold ez; lia)) as Hax.
    pose proof (shl_align_fst my ey ez ltac:(unfold ez; lia)) as Hay.
    set (ax := fst (shl_align mx ex ez)) in *.
    set (ay := fst (shl_align my ey ez)) in *.
    change (Z.pos ax + Z.pos ay) with (Z.pos (ax + ay)).
    cbn [binary_normalize]. unfold binary_round.
    assert (Hsum : Z.pos mx * 2 ^ (ex - ez) <= Z.pos (ax + ay)) by lia.
    assert (Hal : shl_align (ax + ay) ez
                    (fexp prec emax (Z.pos (digits2_pos (ax + ay)) + ez)) =
                  ((ax + ay)%positive, ez)).
    { unfold shl_align. rewrite fexp_64. unfold fexp64.
      rewrite digits2_pos_log2.
      pose proof (bounded_spec mx ex Hx) as (Hex & Hmx & Hnx).
      assert (Z.log2 (Z.pos mx) + (ex - ez) <= Z.log2 (Z.pos (ax + ay))).
      { rewrite Z.add_comm, <- Z.log2_mul_pow2 by (unfold ez; lia).
        apply Z.log2_le_mono. exact Hsum. }
      assert (Hge : ez <= Z.max (Z.log2 (Z.pos (ax + ay)) + 1 + ez - 53) (-1074)).
      { destruct (Z.eq_dec ex (-1074)) as [E | N]; [ unfold ez; lia | ].
        assert (52 <= Z.log2 (Z.pos mx)) by (apply Z.log2_le_pow2; lia).
        unfold ez in *. lia. }
      destruct (Z.max (Z.log2 (Z.pos (ax + ay)) + 1 + ez - 53) (-1074) - ez)
        eqn:Hd; try reflexivity. lia. }
    rewrite Hal.
    pose proof (binary_round_aux_lower (ax + ay) mx ez ex loc_Exact Hx
                  ltac:(unfold ez; lia) Hsum) as Hlow.
    destruct (binary_round_aux prec emax false (Z.pos (ax + ay)) ez loc_Exact)
      as [ s | [ | ] | | [ | ] m' e' ]; try contradiction; try reflexivity.
    now apply SFleb_finite_intro.
Qed.

(** The product of two non-negative numbers that are not infinite is
    non-negative. *)
Lemma SFmul_nonneg (x y : spec_float) :
  sf_nonneg x -> sf_nonneg y ->
  x <> S754_infinity false -> y <> S754_infinity false ->
  sf_nonneg (SFmul prec emax x y).
Proof.
  unfold sf_nonneg. intros Hpx Hpy Hfx Hfy.
  destruct x as [ sx | [ | ] | | [ | ] mx ex ]; try discriminate;
    try congruence;
    destruct y as [ sy | [ | ] | | [ | ] my ey ]; try discriminate;
    try congruence; try reflexivity.
  cbn [SFmul xorb].
  pose proof (binary_round_aux_sign false (Z.pos (mx * my)) (ex + ey)
                loc_Exact ltac:(lia)) as Hs.
  destruct (binary_round_aux prec emax false (Z.pos (mx * my)) (ex + ey)
              loc_Exact) as [ s | s | | s m e ]; try contradiction;
    subst s; reflexivity.
Qed.

Lemma SFleb_trans_nonneg (x y z : spec_float) :
  sf_nonneg x -> SFleb x y = true -> SFleb y z = true -> SFleb x z = true.
Proof.
  unfold sf_nonneg. intros Hx Hxy Hyz.
  destruct x as [ sx | [ | ] | | [ | ] mx ex ]; try discriminate;
    destruct y as [ sy | [ | ] | | [ | ] my ey ]; try discriminate;
    destruct z as [ sz | [ | ] | | [ | ] mz ez ]; try discriminate;
    try reflexivity.
  apply SFleb_finite in Hxy. apply SFleb_finite in Hyz.
  apply SFleb_finite_intro. lia.
Qed.

(** ** From specifications to primitive floats *)

Lemma nonneg_sf (x : float) : nonneg x <-> sf_nonneg (Prim2SF x).
Proof. unfold nonneg, sf_nonneg. rewrite leb_spec. reflexivity. Qed.

Lemma nonneg_real_sf (x : float) :
  nonneg_real x ->
  sf_nonneg (Prim2SF x) /\ Prim2SF x <> S754_infinity false.
Proof.
  unfold nonneg_real. rewrite andb_true_iff, leb_spec, ltb_spec.
  intros [H0 Hinf]. split; [ exact H0 | ].
  intro Habs. rewrite Habs in Hinf. discriminate.
Qed.

Lemma leb_refl_nonneg (x : float) : nonneg x -> (x <=? x)%float = true.
Proof. rewrite nonneg_sf, leb_spec. apply SFleb_refl_nonneg. Qed.

Lemma leb_trans_nonneg (x y z : float) :
  nonneg x -> (x <=? y)%float = true -> (y <=? z)%float = true ->
  (x <=? z)%float = true.
Proof. rewrite nonneg_sf, !leb_spec. apply SFleb_trans_nonneg. Qed.

Lemma nonneg_above (x y : float) :
  nonneg x -> (x <=? y)%float = true -> nonneg y.
Proof.
  intros Hx Hxy. unfold nonneg in *.
  apply (leb_trans_nonneg 0%float x y); try assumption. reflexivity.
Qed.

Lemma add_lower (t p : float) :
  nonneg t -> nonneg p -> (t <=? t + p)%float = true.
Proof.
  rewrite !nonneg_sf, leb_spec, add_spec.
  apply SFadd_lower; apply Prim2SF_valid.
Qed.

Lemma mul_nonneg_real (a b : float) :
  nonneg_real a -> nonneg_real b -> nonneg (a * b).
Proof.
  intros Ha Hb. apply nonneg_real_sf in Ha, Hb.
  rewrite nonneg_sf, mul_spec. now apply SFmul_nonneg.
Qed.

Lemma Prim2SF_round2 (x : float) : Prim2SF (round2 x) = round2_SF (Prim2SF x).
Proof.
  unfold round2.
  pose proof (Prim2SF_valid x) as Hv.
  destruct (Prim2SF x) as [ s | s | | s m e ] eqn:Hx;
    try (rewrite Hx; reflexivity).
  unfold float_of_hundredths, round2_SF.
  destruct (hundredths m e) as [ | p | p ];
    try (apply Prim2SF_SF2Prim; reflexivity).
  apply Prim2SF_SF2Prim. apply nearest_binary64_valid; lia.
Qed.

Lemma round2_mono (a b : float) :
  nonneg a -> (a <=? b)%float = true ->
  (round2 a <=? round2 b)%float = true.
Proof.
  rewrite nonneg_sf, !leb_spec, !Prim2SF_round2.
  apply round2_SF_mono; apply Prim2SF_valid.
Qed.

Lemma round2_nonneg (a : float) : nonneg a -> nonneg (round2 a).
Proof.
  intro Ha. unfold nonneg.
  change 0%float with (round2 0%float) at 1.
  apply round2_mono; [ reflexivity | exact Ha ].
Qed.

(** ** Which season is returned *)

Lemma season_for_day_some_inv (d : date) (s : season) (ss : list season) :
  season_for_day d ss = Ok (Some s) ->
  exists pre post,
    ss = pre ++ s :: post /\
    Forall (fun p => season_matches d p = Ok false) pre /\
    season_matches d s = Ok true.
Proof.
  induction ss as [ | s0 ss IH ]; simpl; [ discriminate | ].
  destruct (season_matches d s0) as [ [ | ] | e ] eqn:Hm; simpl;
    try discriminate.
  - intro H. injection H as <-. exists [], ss. repeat split; auto.
  - intro H. destruct (IH H) as (pre & post & -> & Hpre & Hs).
    exists (s0 :: pre), post. repeat split; auto.
Qed.

Lemma season_for_day_none_inv (d : date) (ss : list season) :
  season_for_day d ss = Ok None ->
  Forall (fun p => season_matches d p = Ok false) ss.
Proof.
  induction ss as [ | s0 ss IH ]; simpl; [ constructor | ].
  destruct (season_matches d s0) as [ [ | ] | e ] eqn:Hm; simpl;
    try discriminate.
  intro H. constructor; auto.
Qed.

Lemma season_for_day_raise_inv (d : date) (e : exn) (ss : list season) :
  season_for_day d ss = Raise e ->
  exists pre s post,
    ss = pre ++ s :: post /\
    Forall (fun p => season_matches d p = Ok false) pre /\
    season_matches d s = Raise e.
Proof.
  induction ss as [ | s0 ss IH ]; simpl; [ discriminate | ].
  destruct (season_matches d s0) as [ [ | ] | e0 ] eqn:Hm; simpl;
    try discriminate.
  - intro H. destruct (IH H) as (pre & s & post & -> & Hpre & Hs).
    exists (s0 :: pre), s, post. repeat split; auto.
  - intro H. injection H as <-. exists [], s0, ss. repeat split; auto.
Qed.

Lemma season_for_day_raise (d : date) (e : exn) (pre post : list season)
    (s : season) :
  Forall (fun p => season_matches d p = Ok false) pre ->
  season_matches d s = Raise e ->
  season_for_day d (pre ++ s :: post) = Raise e.
Proof.
  intros Hpre Hs. induction Hpre as [ | p pre Hp _ IH ]; simpl.
  - now rewrite Hs.
  - now rewrite Hp.
Qed.

Lemma season_for_day_in (d : date) (s : season) (ss : list season) :
  season_for_day d ss = Ok (Some s) -> In s ss.
Proof.
  intro H. destruct (season_for_day_some_inv d s ss H) as (pre & post & -> & _).
  apply in_or_app. right. now left.
Qed.

(** ** Non-negative prices *)

Lemma nonneg_real_zero : nonneg_real 0%float.
Proof. reflexivity. Qed.

Lemma nonneg_zero : nonneg 0%float.
Proof. reflexivity. Qed.

Lemma base_rate_nonneg_real (d : date) (ss : list season) (s : option season) :
  rates_nonneg_real ss -> season_for_day d ss = Ok s ->
  nonneg_real (base_rate s).
Proof.
  intros Hss Hs. destruct s as [ s | ]; [ | exact nonneg_real_zero ].
  apply season_for_day_in in Hs. unfold rates_nonneg_real in Hss.
  rewrite Forall_forall in Hss. specialize (Hss s Hs).
  unfold base_rate. destruct (rate s) as [ r | ];
    [ now apply Hss | exact nonneg_real_zero ].
Qed.

Lemma day_price_nonneg (rm : room) (ss : list season) (d : date) (p : float) :
  nonneg_real (room_multiplier rm) -> rates_nonneg_real ss ->
  day_price rm ss d = Ok p -> nonneg p.
Proof.
  intros Hm Hss. unfold day_price.
  destruct (season_for_day d ss) as [ s | e ] eqn:Hs; simpl; [ | discriminate ].
  intro H. injection H as <-.
  apply mul_nonneg_real; [ | exact Hm ].
  exact (base_rate_nonneg_real d ss s Hss Hs).
Qed.

(** The running total never goes down when every day price is
    non-negative. *)
Lemma accumulate_ge (rm : room) (ss : list season) (days : list date) :
  (forall d p, day_price rm ss d = Ok p -> nonneg p) ->
  forall t t', nonneg t -> accumulate rm ss days t = Ok t' ->
               (t <=? t')%float = true.
Proof.
  intro Hday. induction days as [ | d days IH ]; intros t t' Ht; simpl.
  - intro H. injection H as <-. now apply leb_refl_nonneg.
  - destruct (day_price rm ss d) as [ p | e ] eqn:Hp; simpl; [ | discriminate ].
    intro Hacc.
    pose proof (add_lower t p Ht (Hday d p Hp)) as Hstep.
    apply (leb_trans_nonneg t (t + p)%float t'); try assumption.
    apply IH; [ | exact Hacc ].
    exact (nonneg_above t _ Ht Hstep).
Qed.

Lemma stay_total_app (rm : room) (ss : list season) (t : float)
    (d1 d2 d3 : date) :
  valid_date d1 -> valid_date d2 -> valid_date d3 ->
  (date_lt d1 d2 \/ d1 = d2) -> (date_lt d2 d3 \/ d2 = d3) ->
  stay_total rm ss t d1 d3 =
    (t1 <- stay_total rm ss t d1 d2 ;; stay_total rm ss t1 d2 d3).
Proof.
  intros H1 H2 H3 H12 H23.
  rewrite !stay_total_eq by assumption.
  rewrite (daterange_app d2 d3 H2 H3 H23 d1 H1 H12), accumulate_app.
  destruct (accumulate rm ss (fst (daterange d1 d2)) t); simpl;
    [ now rewrite stay_total_eq | reflexivity ].
Qed.

Lemma price_monotone_gen (rm : room) (ss : list season) (ci co co' : date) :
  valid_date ci -> valid_date co -> valid_date co' ->
  (date_lt ci co \/ ci = co) -> (date_lt co co' \/ co = co') ->
  (forall d p, day_price rm ss d = Ok p -> nonneg p) ->
  forall p', compute_price rm ss ci co' = Ok p' ->
  exists p, compute_price rm ss ci co = Ok p /\ (p <=? p')%float = true.
Proof.
  intros Hci Hco Hco' Hle Hle' Hday p'.
  unfold compute_price.
  rewrite (stay_total_app rm ss 0%float ci co co') by assumption.
  destruct (stay_total rm ss 0%float ci co) as [ t | e ] eqn:Ht; simpl;
    [ | discriminate ].
  destruct (stay_total rm ss t co co') as [ t' | e ] eqn:Ht'; simpl;
    [ | discriminate ].
  intro H. injection H as <-.
  exists (round2 t). split; [ reflexivity | ].
  rewrite stay_total_eq in Ht, Ht' by assumption.
  pose proof (accumulate_ge rm ss _ Hday _ _ nonneg_zero Ht) as H0t.
  assert (Htpos : nonneg t) by exact (nonneg_above _ _ nonneg_zero H0t).
  apply round2_mono; [ exact Htpos | ].
  exact (accumulate_ge rm ss _ Hday _ _ Htpos Ht').
Qed.

(** X11.  With a multiplier and rates that are non-negative and not
    infinite, a longer stay never costs less: whenever the stay up to the
    later check-out prices, the stay up to the earlier one prices too, at
    most as high. *)
Theorem longer_stay_costs_no_less (rm : room) (ss : list season)
    (ci co co' : date) :
  valid_date ci -> valid_date co -> valid_date co' ->
  (date_lt ci co \/ ci = co) -> (date_lt co co' \/ co = co') ->
  nonneg_real (room_multiplier rm) -> rates_nonneg_real ss ->
  forall p', compute_price rm ss ci co' = Ok p' ->
  exists p, compute_price rm ss ci co = Ok p /\ (p <=? p')%float = true.
Proof.
  intros Hci Hco Hco' Hle Hle' Hm Hss.
  apply price_monotone_gen; try assumption.
  intros d p. now apply day_price_nonneg.
Qed.

(** * Further properties of the lookup *)

(** X1.  The three outcomes of [season_for_day]: it returns a season
    exactly when that season is the first of the list whose test succeeds,
    every season before it having tested negative; it returns [None]
    exactly when every season tests negative; and it raises exactly the
    exception of the first season whose test raises, every season before it
    having tested negative. *)
Theorem season_lookup_outcomes (d : date) (ss : list season) :
  (forall s,
     season_for_day d ss = Ok (Some s) <->
     exists pre post,
       ss = pre ++ s :: post /\
       Forall (fun p => season_matches d p = Ok false) pre /\
       season_matches d s = Ok true) /\
  (season_for_day d ss = Ok None <->
   Forall (fun p => season_matches d p = Ok false) ss) /\
  (forall e,
     season_for_day d ss = Raise e <->
     exists pre s post,
       ss = pre ++ s :: post /\
       Forall (fun p => season_matches d p = Ok false) pre /\
       season_matches d s = Raise e).
Proof.
  split; [ | split ].
  - intro s. split; [ apply season_for_day_some_inv | ].
    intros (pre & post & -> & Hpre & Hs). now apply season_for_day_first.
  - split; [ apply season_for_day_none_inv | apply season_for_day_none ].
  - intro e. split; [ apply season_for_day_raise_inv | ].
    intros (pre & s & post & -> & Hpre & Hs). now apply season_for_day_raise.
Qed.









Lemma first_day_le (d : date) :
  valid_date d -> date_leb (mkdate (year d) 1 1) d = true.
Proof.
  intro Hd. apply valid_date_bounds in Hd. apply date_leb_iff.
  destruct d as [y m dd]. unfold date_lt. simpl in *.
  destruct (Z.eq_dec m 1) as [-> | Hm]; [ | left; lia ].
  destruct (Z.eq_dec dd 1) as [-> | Hdd]; [ now right | left; lia ].
Qed.

Lemma last_day_ge (d : date) :
  valid_date d -> date_leb d (mkdate (year d) 12 31) = true.
Proof.
  intro Hd. apply valid_date_bounds in Hd. apply date_leb_iff.
  destruct d as [y m dd]. unfold date_lt. simpl in *.
  destruct (Z.eq_dec m 12) as [-> | Hm]; [ | left; lia ].
  destruct (Z.eq_dec dd 31) as [-> | Hdd]; [ now right | left; lia ].
Qed.

(** X3.  A season that wraps (its end, in the year of the day, is strictly
    before its start) leaves out exactly the days strictly between its end
    and its start; in particular it contains 1 January and 31 December of
    that year. *)
Theorem wrapping_season_spans_new_year (d : date) (s : season)
    (st en : date) :
  date_new (year d) (start_month s) (start_day s) = Ok st ->
  date_new (year d) (end_month s) (end_day s) = Ok en ->
  date_ltb en st = true ->
  (season_matches d s = Ok false <->
   date_ltb en d = true /\ date_ltb d st = true) /\
  season_matches (mkdate (year d) 1 1) s = Ok true /\
  season_matches (mkdate (year d) 12 31) s = Ok true.
Proof.
  intros Hst Hen Hwrap.
  destruct (date_new_ok_inv _ _ _ _ Hst) as [Hvst Hyst].
  destruct (date_new_ok_inv _ _ _ _ Hen) as [Hven Hyen].
  split; [ | split ].
  - rewrite (season_matches_eq d s st en Hst Hen), Hwrap.
    rewrite !date_ltb_leb.
    destruct (date_leb st d), (date_leb d en); simpl; split;
      try discriminate; try tauto; intros [? ?]; discriminate.
  - rewrite (season_matches_eq (mkdate (year d) 1 1) s st en Hst Hen), Hwrap.
    pose proof (first_day_le en Hven) as Hle. rewrite Hyen in Hle.
    rewrite Hle, orb_true_r. reflexivity.
  - rewrite (season_matches_eq (mkdate (year d) 12 31) s st en Hst Hen), Hwrap.
    pose proof (last_day_ge st Hvst) as Hle. rewrite Hyst in Hle.
    rewrite Hle. reflexivity.
Qed.

Lemma wrapping_season_spans_new_year_witness :
  season_matches (mkdate 2024 8 15) academic_year = Ok false /\
  season_matches (mkdate 2024 1 1) academic_year = Ok true /\
  season_matches (mkdate 2024 12 31) academic_year = Ok true.
Proof.
  destruct (wrapping_season_spans_new_year (mkdate 2024 8 15) academic_year
              (mkdate 2024 10 1) (mkdate 2024 6 30) eq_refl eq_refl eq_refl)
    as (Hout & Hjan & Hdec).
  split; [ apply Hout; split; reflexivity | ]. split; assumption.
Defined.

(** X4.  When [check_out] is not after [check_in] the generator yields
    nothing and [compute_price] returns [0.0]: no season is looked at, so
    not even a malformed season makes it raise. *)
Theorem no_nights_costs_nothing (rm : room) (ss : list season)
    (ci co : date) :
  date_ltb ci co = false ->
  daterange ci co = ([], None) /\
  compute_price rm ss ci co = Ok 0%float.
Proof.
  intro Hge.
  assert (Hrun : daterange ci co = ([], None)).
  { unfold daterange.
    destruct (Z.to_nat (day_index co - day_index ci)); simpl;
      [ reflexivity | now rewrite Hge ]. }
  split; [ exact Hrun | ].
  unfold compute_price, stay_total. rewrite Hrun. reflexivity.
Qed.

Lemma no_nights_costs_nothing_witness :
  compute_price private_room
    [mkseason "broken" None None None None None]
    (mkdate 2024 11 4) (mkdate 2024 11 1) = Ok 0%float.
Proof.
  apply (no_nights_costs_nothing private_room _ (mkdate 2024 11 4)
           (mkdate 2024 11 1)). reflexivity.
Defined.

Lemma daterange_calendar (ci co : date) :
  valid_date ci -> valid_date co ->
  exists days, daterange ci co = (days, None) /\ Forall valid_date days.
Proof.
  intros Hci Hco.
  destruct (date_ltb ci co) eqn:Hlt.
  - apply date_ltb_true_lt in Hlt.
    destruct (daterange_spec co Hco ci Hci (or_introl Hlt))
      as (days & Hrun & Hval & _).
    now exists days.
  - exists []. split; [ | constructor ].
    rewrite daterange_unfold, Hlt by assumption. reflexivity.
Qed.

(** X5.  Between calendar dates the generator always ends by exhaustion:
    [cur += timedelta(days=1)] is only reached with [cur < end], so it
    never overflows, not even when [end] is the last date there is, and
    every date it yields is a calendar date with a next day. *)
Theorem daterange_never_overflows (ci co : date) :
  valid_date ci -> valid_date co ->
  exists days,
    daterange ci co = (days, None) /\
    Forall valid_date days /\
    Forall (fun d => exists n, add_one_day d = Ok n) days.
Proof.
  intros Hci Hco.
  destruct (daterange_calendar ci co Hci Hco) as (days & Hrun & Hval).
  exists days. split; [ exact Hrun | ]. split; [ exact Hval | ].
  destruct (date_ltb ci co) eqn:Hlt.
  - apply date_ltb_true_lt in Hlt.
    destruct (daterange_spec co Hco ci Hci (or_introl Hlt))
      as (days' & Hrun' & Hval' & Hin & _).
    rewrite Hrun in Hrun'. injection Hrun' as <-.
    rewrite Forall_forall in *. intros d Hd.
    destruct (proj1 (Hin d (Hval d Hd)) Hd) as [_ Hdco].
    apply date_ltb_true_lt in Hdco.
    destruct (add_one_day_succ d co (Hval d Hd) Hco Hdco) as (n & Hn & _).
    now exists n.
  - rewrite daterange_unfold, Hlt in Hrun by assumption.
    injection Hrun as <-. constructor.
Qed.

Lemma daterange_never_overflows_witness :
  daterange (mkdate 9999 12 30) (mkdate 9999 12 31)
  = ([mkdate 9999 12 30], None) /\
  add_one_day (mkdate 9999 12 31) = Raise OverflowError.
Proof.
  destruct (daterange_never_overflows (mkdate 9999 12 30) (mkdate 9999 12 31)
              eq_refl eq_refl) as (days & Hrun & _ & _).
  split; [ | reflexivity ].
  pose proof Hrun as Hdays. vm_compute in Hdays. injection Hdays as <-.
  exact Hrun.
Defined.

(** ** The seeded catalog *)

Lemma date_leb_same_year (y m1 d1 m2 d2 : Z) :
  date_leb (mkdate y m1 d1) (mkdate y m2 d2) =
    ((m1 <? m2) || ((m1 =? m2) && (d1 <=? d2))).
Proof.
  unfold date_leb. rewrite date_compare_same_year.
  destruct (Z.compare_spec m1 m2) as [Heq | Hlt | Hgt].
  - subst. rewrite Z.ltb_irrefl, Z.eqb_refl. simpl.
    destruct (Z.compare_spec d1 d2); destruct (Z.leb_spec d1 d2);
      try reflexivity; lia.
  - apply Z.ltb_lt in Hlt. now rewrite Hlt.
  - destruct (Z.ltb_spec m1 m2); [ lia | ].
    destruct (Z.eqb_spec m1 m2); [ lia | reflexivity ].
Qed.

Lemma seed_season_for_day (d : date) :
  valid_date d ->
  season_for_day d seed_seasons =
    Ok (Some (if (7 <=? month d) && (month d <=? 9)
              then summer else academic_year)).
Proof.
  intro Hd.
  pose proof (valid_date_bounds d Hd) as (Hy & Hm & Hdd & _).
  destruct d as [y m dd]. cbn [year month day] in *.
  unfold seed_seasons. cbn [season_for_day].
  rewrite (season_matches_eq (mkdate y m dd) academic_year
             (mkdate y 10 1) (mkdate y 6 30))
    by (apply date_new_in_year; [ assumption | reflexivity ]).
  rewrite (season_matches_eq (mkdate y m dd) summer
             (mkdate y 7 1) (mkdate y 9 30))
    by (apply date_new_in_year; [ assumption | reflexivity ]).
  unfold date_ltb. rewrite !date_compare_same_year.
  rewrite !date_leb_same_year. cbn [Z.compare Pos.compare Pos.compare_cont].
  assert (Hcases : m = 1 \/ m = 2 \/ m = 3 \/ m = 4 \/ m = 5 \/ m = 6 \/
                   m = 7 \/ m = 8 \/ m = 9 \/ m = 10 \/ m = 11 \/ m = 12)
    by lia.
  repeat (destruct Hcases as [-> | Hcases]); try subst m;
    cbn [days_in_month] in Hdd; cbn [Z.ltb Z.eqb Z.leb Z.compare
      Pos.compare Pos.compare_cont Pos.eqb orb andb bind];
    try reflexivity.
  - destruct (Z.leb_spec dd 30); [ reflexivity | lia ].
  - destruct (Z.leb_spec 1 dd); [ reflexivity | lia ].
  - destruct (Z.leb_spec dd 30); [ reflexivity | lia ].
  - destruct (Z.leb_spec 1 dd); [ reflexivity | lia ].
Qed.

(** X6.  With the seasons [seed_defaults] inserts, every calendar day
    resolves to a season and the lookup never raises: July to September to
    Summer, every other month to Academic Year.  Holiday, which comes after
    Academic Year in the list, is never returned. *)
Theorem seed_seasons_cover_every_day (d : date) :
  valid_date d ->
  season_for_day d seed_seasons =
    Ok (Some (if (7 <=? month d) && (month d <=? 9)
              then summer else academic_year)) /\
  season_for_day d seed_seasons <> Ok (Some holiday) /\
  day_price private_room seed_seasons d =
    Ok (if (7 <=? month d) && (month d <=? 9) then 35%float else 45%float).
Proof.
  intro Hd. pose proof (seed_season_for_day d Hd) as Hres.
  split; [ exact Hres | ]. split.
  - rewrite Hres. destruct ((7 <=? month d) && (month d <=? 9)); discriminate.
  - unfold day_price. rewrite Hres.
    destruct ((7 <=? month d) && (month d <=? 9)); reflexivity.
Qed.

Lemma seed_seasons_cover_every_day_witness :
  season_for_day (mkdate 2023 12 25) seed_seasons = Ok (Some academic_year) /\
  season_for_day (mkdate 2023 8 1) seed_seasons = Ok (Some summer).
Proof.
  split.
  - exact (proj1 (seed_seasons_cover_every_day (mkdate 2023 12 25) eq_refl)).
  - exact (proj1 (seed_seasons_cover_every_day (mkdate 2023 8 1) eq_refl)).
Defined.

(** X7.  Seeding is idempotent and only ever fills empty collections: a
    second run changes nothing, whatever identifiers it is offered;
    collections that had documents, and the bookings, are left as they
    were; and once a database has been seeded neither seasons nor rooms
    are empty. *)
Theorem seed_defaults_idempotent (a1 a2 b1 b2 : string)
    (db : option database) :
  seed_defaults b1 b2 (seed_defaults a1 a2 db) = seed_defaults a1 a2 db /\
  (forall db0 db1,
     db = Some db0 -> seed_defaults a1 a2 db = Some db1 ->
     bookings db1 = bookings db0 /\
     (seasons db0 <> [] -> seasons db1 = seasons db0) /\
     (rooms db0 <> [] -> rooms db1 = rooms db0) /\
     (seasons db0 = [] -> seasons db1 = seed_seasons) /\
     (rooms db0 = [] -> rooms db1 = seed_rooms a1 a2) /\
     seasons db1 <> [] /\ rooms db1 <> []) /\
  (db = None -> seed_defaults a1 a2 db = None).
Proof.
  split; [ | split ].
  - destruct db as [ [ rs ss bs ] | ]; [ | reflexivity ].
    destruct rs, ss; reflexivity.
  - intros db0 db1 -> H. destruct db0 as [ rs ss bs ].
    destruct rs, ss; injection H as <-; cbn;
      repeat split; try discriminate; try reflexivity; congruence.
  - intros ->. reflexivity.
Qed.

(** ** Prices without seasons *)

Lemma finite_float_sf (x : float) :
  finite_float x ->
  match Prim2SF x with
  | S754_zero _ | S754_finite _ _ _ => True
  | _ => False
  end.
Proof.
  unfold finite_float. rewrite ltb_spec, abs_spec.
  destruct (Prim2SF x) as [ s | s | | s m e ]; try exact (fun _ => I);
    intro H; vm_compute in H; discriminate.
Qed.

(** Adding the price of an uncovered day to a total of [0.0] leaves
    [0.0]. *)
Lemma zero_plus_uncovered (m : float) :
  finite_float m -> (0 + 0 * m)%float = 0%float.
Proof.
  intro Hm. apply finite_float_sf in Hm.
  apply Prim2SF_inj. rewrite add_spec, mul_spec.
  change (Prim2SF 0%float) with (S754_zero false).
  destruct (Prim2SF m) as [ [ | ] | s | | [ | ] mm e ]; try contradiction;
    reflexivity.
Qed.

Lemma accumulate_no_season (rm : room) (days : list date) :
  finite_float (room_multiplier rm) ->
  accumulate rm [] days 0%float = Ok 0%float.
Proof.
  intro Hm. induction days as [ | d days IH ]; [ reflexivity | ].
  cbn [accumulate]. unfold day_price. cbn [season_for_day bind base_rate].
  now rewrite zero_plus_uncovered.
Qed.

(** X8.  With no season in the catalog every stay between calendar dates
    costs [0.0], whatever its length, for any room whose multiplier is
    absent or a finite number. *)
Theorem no_season_costs_nothing (rm : room) (ci co : date) :
  valid_date ci -> valid_date co ->
  finite_float (room_multiplier rm) ->
  compute_price rm [] ci co = Ok 0%float.
Proof.
  intros Hci Hco Hm. unfold compute_price.
  rewrite stay_total_eq by assumption.
  rewrite accumulate_no_season by exact Hm. reflexivity.
Qed.

Lemma no_season_costs_nothing_witness :
  compute_price entire_apartment [] (mkdate 2024 2 27) (mkdate 2024 3 2)
  = Ok 0%float.
Proof.
  apply (no_season_costs_nothing entire_apartment); reflexivity.
Defined.

(** ** Order and sign of prices *)

(** X9.  Rounding to two decimals keeps the order of non-negative totals:
    it fixes [0.0], sends non-negative totals to non-negative prices and
    never makes the smaller of two totals the larger price. *)
Theorem round2_monotone (a b : float) :
  nonneg a -> (a <=? b)%float = true ->
  round2 0%float = 0%float /\
  nonneg (round2 a) /\ nonneg (round2 b) /\
  (round2 a <=? round2 b)%float = true.
Proof.
  intros Ha Hab.
  split; [ reflexivity | ].
  split; [ now apply round2_nonneg | ].
  split; [ apply round2_nonneg; exact (nonneg_above a b Ha Hab) | ].
  now apply round2_mono.
Qed.

Lemma round2_monotone_witness :
  (round2 45.125 <=? round2 45.25)%float = true.
Proof.
  apply (round2_monotone 45.125%float 45.25%float); reflexivity.
Defined.

(** X10.  With a multiplier and rates that are non-negative and not
    infinite, no night lowers the running total: the total after any run of
    days is at least the total before it, and stays non-negative. *)
Theorem running_total_never_decreases (rm : room) (ss : list season)
    (days : list date) (t t' : float) :
  nonneg_real (room_multiplier rm) -> rates_nonneg_real ss ->
  nonneg t -> accumulate rm ss days t = Ok t' ->
  (t <=? t')%float = true /\ nonneg t'.
Proof.
  intros Hm Hss Ht Hacc.
  assert (Hle : (t <=? t')%float = true).
  { apply (accumulate_ge rm ss days); try assumption.
    intros d p. now apply day_price_nonneg. }
  split; [ exact Hle | exact (nonneg_above t t' Ht Hle) ].
Qed.

Lemma seed_rates_nonneg_real : rates_nonneg_real seed_seasons.
Proof.
  unfold rates_nonneg_real, seed_seasons.
  repeat constructor; intros r H; injection H as <-; reflexivity.
Qed.

Lemma running_total_never_decreases_witness :
  accumulate private_room seed_seasons [mkdate 2024 6 30; mkdate 2024 7 1]
    10%float = Ok 90%float /\
  (10 <=? 90)%float = true /\ nonneg 90%float.
Proof.
  split; [ reflexivity | ].
  apply (running_total_never_decreases private_room seed_seasons
           [mkdate 2024 6 30; mkdate 2024 7 1] 10%float 90%float);
    try reflexivity.
  exact seed_rates_nonneg_real.
Defined.

Lemma longer_stay_costs_no_less_witness :
  exists p,
    compute_price entire_apartment seed_seasons
      (mkdate 2024 11 1) (mkdate 2024 11 4) = Ok p /\
    (p <=? 315)%float = true.
Proof.
  apply (longer_stay_costs_no_less entire_apartment seed_seasons
           (mkdate 2024 11 1) (mkdate 2024 11 4) (mkdate 2024 11 6));
    try reflexivity.
  - left. unfold date_lt. simpl. lia.
  - left. unfold date_lt. simpl. lia.
  - exact seed_rates_nonneg_real.
Defined.

(** ** Prices of schema-valid data *)

Lemma SFmul_nonneg_finite (x : spec_float) (m : positive) (e : Z) :
  sf_nonneg x -> sf_nonneg (SFmul prec emax x (S754_finite false m e)).
Proof.
  unfold sf_nonneg. intro Hx.
  destruct x as [ sx | [ | ] | | [ | ] mx ex ]; try discriminate;
    try reflexivity.
  cbn [SFmul xorb].
  pose proof (binary_round_aux_sign false (Z.pos (mx * m)) (ex + e)
                loc_Exact ltac:(lia)) as Hs.
  destruct (binary_round_aux prec emax false (Z.pos (mx * m)) (ex + e)
              loc_Exact) as [ s | s | | s m' e' ]; try contradiction;
    subst s; reflexivity.
Qed.

Lemma mul_nonneg_schema (a b : float) :
  nonneg a -> ((0.5 <=? b) && (b <=? 3))%float = true -> nonneg (a * b).
Proof.
  intros Ha Hb. apply andb_true_iff in Hb. destruct Hb as [Hlo Hhi].
  rewrite leb_spec in Hlo, Hhi.
  set (lo := Prim2SF 0.5%float) in Hlo. vm_compute in lo. subst lo.
  set (hi := Prim2SF 3%float) in Hhi. vm_compute in hi. subst hi.
  rewrite nonneg_sf in *. rewrite mul_spec.
  destruct (Prim2SF b) as [ s | [ | ] | | [ | ] m e ]; try discriminate.
  now apply SFmul_nonneg_finite.
Qed.

Lemma day_price_nonneg_schema (rm : room) (ss : list season) (d : date)
    (p : float) :
  room_schema_ok rm = true ->
  Forall (fun s => season_schema_ok s = true) ss ->
  day_price rm ss d = Ok p -> nonneg p.
Proof.
  intros Hrm Hss. unfold day_price.
  destruct (season_for_day d ss) as [ s | e ] eqn:Hs; simpl; [ | discriminate ].
  intro H. injection H as <-.
  apply mul_nonneg_schema.
  - destruct s as [ s | ]; [ | reflexivity ].
    apply season_for_day_in in Hs. rewrite Forall_forall in Hss.
    specialize (Hss s Hs). unfold season_schema_ok in Hss. unfold base_rate.
    destruct (start_month s), (start_day s), (end_month s), (end_day s),
      (rate s) as [ r | ]; try discriminate.
    apply andb_true_iff in Hss. apply Hss.
  - unfold room_schema_ok in Hrm. apply andb_true_iff in Hrm.
    destruct Hrm as [_ Hm]. unfold room_multiplier.
    destruct (multiplier rm); [ exact Hm | reflexivity ].
Qed.

(** X12.  A room and seasons that satisfy the field constraints of
    [schemas.py] always price to a non-negative amount, so the
    [total_price] a booking stores meets the [ge=0] constraint of the
    [Booking] model. *)
Theorem price_is_nonnegative (rm : room) (ss : list season) (ci co : date)
    (p : float) :
  room_schema_ok rm = true ->
  Forall (fun s => season_schema_ok s = true) ss ->
  compute_price rm ss ci co = Ok p ->
  (0 <=? p)%float = true.
Proof.
  intros Hrm Hss. unfold compute_price, stay_total.
  destruct (daterange ci co) as [days stop].
  destruct (accumulate rm ss days 0%float) as [ t | e ] eqn:Hacc; simpl;
    [ | discriminate ].
  destruct stop; simpl; [ discriminate | ].
  intro H. injection H as <-.
  apply round2_nonneg.
  apply (nonneg_above 0%float t nonneg_zero).
  apply (accumulate_ge rm ss days); [ | exact nonneg_zero | exact Hacc ].
  intros d p. now apply day_price_nonneg_schema.
Qed.

Lemma price_is_nonnegative_witness :
  (0 <=? 189)%float = true.
Proof.
  apply (price_is_nonnegative entire_apartment seed_seasons
           (mkdate 2024 11 1) (mkdate 2024 11 4) 189%float);
    try reflexivity.
  repeat constructor.
Defined.

(** ** What the endpoints accept and store *)

Section EndpointContracts.

Variable parse_date : string -> result date.
Variable utcnow_created utcnow_updated : Z.
Variable inserted_id : database -> booking_doc -> string.

(** X13.  [/quote] answers exactly when the room exists, both dates parse,
    [check_in] is strictly before [check_out], the guests are between 1 and
    the room's capacity (1 when the room has none) and pricing returns; the
    answer echoes the request with that price in EUR. *)
Theorem quote_accepts_only_valid_requests (db : database) (q : QuoteRequest)
    (r : quote_response) :
  get_quote parse_date db q = Ok r <->
  exists rm ci co price,
    find_room db (room_id q) = Some rm /\
    room_oid rm = room_id q /\
    parse_date (check_in q) = Ok ci /\
    parse_date (check_out q) = Ok co /\
    date_ltb ci co = true /\
    1 <= guests q <= room_capacity rm /\
    compute_price rm (seasons db) ci co = Ok price /\
    r = mkquote_response (room_id q) (check_in q) (check_out q) (guests q)
          price "EUR".
Proof.
  unfold get_quote. split.
  - destruct (find_room db (room_id q)) as [ rm | ] eqn:Hrm; [ | discriminate ].
    assert (Hoid : room_oid rm = room_id q).
    { unfold find_room in Hrm. apply find_some in Hrm.
      now apply String.eqb_eq. }
    destruct (parse_date (check_in q)) as [ ci | e ]; cbn [bind];
      [ | discriminate ].
    destruct (parse_date (check_out q)) as [ co | e ]; cbn [bind];
      [ | discriminate ].
    destruct (date_leb co ci) eqn:Hord; [ discriminate | ].
    destruct (Z.ltb_spec (guests q) 1) as [ | Hg1 ]; [ discriminate | ].
    destruct (Z.ltb_spec (room_capacity rm) (guests q)) as [ | Hg2 ];
      [ discriminate | ]. cbn [orb].
    destruct (compute_price rm (seasons db) ci co) as [ price | e ]
      eqn:Hprice; cbn [bind]; [ | discriminate ].
    intro H. injection H as <-.
    exists rm, ci, co, price. rewrite date_ltb_leb, Hord.
    repeat split; auto; lia.
  - intros (rm & ci & co & price & Hrm & _ & Hci & Hco & Hord & Hg & Hp & ->).
    rewrite Hrm, Hci. cbn [bind]. rewrite Hco. cbn [bind].
    rewrite date_ltb_leb in Hord. apply negb_true_iff in Hord.
    rewrite Hord.
    destruct (Z.ltb_spec (guests q) 1); [ lia | ].
    destruct (Z.ltb_spec (room_capacity rm) (guests q)); [ lia | ].
    cbn [orb]. rewrite Hp. reflexivity.
Qed.

(** X14.  A booking that is accepted is appended as the last document of
    the booking collection under the identifier the answer returns; the
    stored document carries the request's room, dates and guests, the
    student's contact, the returned price, currency EUR and status
    confirmed; the bookings already there, the rooms and the seasons are
    left as they were. *)
Theorem booking_is_appended (db db' : database) (payload : BookingRequest)
    (b : booking_response) :
  create_booking parse_date utcnow_created utcnow_updated inserted_id db
      payload = Ok (b, db') ->
  exists doc,
    bookings db' = bookings db ++ [(b_booking_id b, doc)] /\
    b_booking_id b = inserted_id db doc /\
    doc_room_id doc = room_id (quote_fields payload) /\
    doc_check_in doc = check_in (quote_fields payload) /\
    doc_check_out doc = check_out (quote_fields payload) /\
    doc_guests doc = guests (quote_fields payload) /\
    doc_student doc = (student_name payload, email payload,
                       university payload, phone payload) /\
    doc_total_price doc = b_total_price b /\
    doc_currency doc = "EUR"%string /\ b_currency b = "EUR"%string /\
    doc_status doc = "confirmed"%string /\ b_status b = "confirmed"%string /\
    firstn (List.length (bookings db)) (bookings db') = bookings db /\
    List.length (bookings db') = S (List.length (bookings db)) /\
    rooms db' = rooms db /\ seasons db' = seasons db.
Proof.
  unfold create_booking.
  destruct (find_room db (room_id (quote_fields payload))) as [ rm | ];
    [ | discriminate ].
  destruct (parse_date (check_in (quote_fields payload))) as [ ci | e ];
    cbn [bind]; [ | discriminate ].
  destruct (parse_date (check_out (quote_fields payload))) as [ co | e ];
    cbn [bind]; [ | discriminate ].
  destruct (date_leb co ci); [ discriminate | ].
  destruct ((guests (quote_fields payload) <? 1)
            || (room_capacity rm <? guests (quote_fields payload)));
    [ discriminate | ].
  destruct (compute_price rm (seasons db) ci co) as [ total | e ];
    cbn [bind]; [ | discriminate ].
  intro H. injection H as <- <-.
  eexists. cbn.
  repeat (split; [ reflexivity | ]).
  split; [ | split; [ | split; reflexivity ] ].
  - rewrite firstn_app, Nat.sub_diag, firstn_all. cbn. apply app_nil_r.
  - rewrite List.length_app. cbn. lia.
Qed.

End EndpointContracts.

Lemma booking_is_appended_witness :
  exists b db',
    create_booking toy_parse_date 0 1 (fun _ _ => "b1"%string) toy_database
      (mkBookingRequest (mkQuoteRequest "r2" "2024-11-01" "2024-11-04" 3)
         "Ada" "ada@um.edu.mt" None None) = Ok (b, db') /\
    b_total_price b = 189%float /\
    List.length (bookings db') = 1%nat.
Proof.
  eexists _, _. split; [ reflexivity | ]. split; [ reflexivity | ].
  destruct (booking_is_appended toy_parse_date 0 1 (fun _ _ => "b1"%string)
              toy_database _
              (mkBookingRequest (mkQuoteRequest "r2" "2024-11-01" "2024-11-04" 3)
                 "Ada" "ada@um.edu.mt" None None) _ eq_refl)
    as (doc & _ & _ & _ & _ & _ & _ & _ & _ & _ & _ & _ & _ & _ & Hlen & _).
  exact Hlen.
Defined.

Lemma accumulate_seeded (rm : room) (days : list date) :
  Forall valid_date days ->
  forall t, exists t', accumulate rm seed_seasons days t = Ok t'.
Proof.
  intro Hdays. induction Hdays as [ | d days Hd _ IH ]; intro t.
  - now exists t.
  - cbn [accumulate]. unfold day_price.
    rewrite (seed_season_for_day d Hd). cbn [bind]. apply IH.
Qed.

(** X15.  On the seeded catalog pricing never fails: every stay between
    two calendar dates, for any room, returns a price. *)
Theorem seeded_catalog_always_prices (rm : room) (ci co : date) :
  valid_date ci -> valid_date co ->
  exists p, compute_price rm seed_seasons ci co = Ok p.
Proof.
  intros Hci Hco.
  pose proof (daterange_calendar ci co Hci Hco) as Hrun.
  destruct Hrun as (days & Hrun & Hval).
  destruct (accumulate_seeded rm days Hval 0%float) as [t Ht].
  exists (round2 t). unfold compute_price, stay_total.
  rewrite Hrun, Ht. reflexivity.
Qed.

Lemma seeded_catalog_always_prices_witness :
  exists p,
    compute_price entire_apartment seed_seasons
      (mkdate 2023 12 30) (mkdate 2024 1 2) = Ok p.
Proof.
  apply (seeded_catalog_always_prices entire_apartment); reflexivity.
Defined.

(** ** The order of the catalog *)

Lemma season_for_day_unique (d : date) (ss : list season) (s : season) :
  (forall p, In p ss -> exists b, season_matches d p = Ok b) ->
  (forall p, In p ss -> season_matches d p = Ok true -> p = s) ->
  In s ss -> season_matches d s = Ok true ->
  season_for_day d ss = Ok (Some s).
Proof.
  intros Hok Huniq Hin Hs.
  induction ss as [ | p ss IH ]; [ contradiction | ].
  cbn [season_for_day].
  destruct (Hok p (or_introl eq_refl)) as [ [ | ] Hp ]; rewrite Hp;
    cbn [bind].
  - now rewrite (Huniq p (or_introl eq_refl) Hp).
  - apply IH.
    + intros q Hq. apply Hok. now right.
    + intros q Hq. apply Huniq. now right.
    + destruct Hin as [-> | Hin]; [ congruence | exact Hin ].
Qed.

(** X16.  The order of the catalog matters only where seasons overlap:
    when no season's test raises for the day and at most one season
    contains it, any reordering of the list resolves the day to the same
    season and prices it the same. *)
Theorem order_irrelevant_without_overlap (rm : room) (d : date)
    (ss ss' : list season) :
  Permutation ss ss' ->
  (forall p, In p ss -> exists b, season_matches d p = Ok b) ->
  (forall p q, In p ss -> In q ss ->
               season_matches d p = Ok true -> season_matches d q = Ok true ->
               p = q) ->
  season_for_day d ss' = season_for_day d ss /\
  day_price rm ss' d = day_price rm ss d.
Proof.
  intros Hperm Hok Huniq.
  assert (Hlook : season_for_day d ss' = season_for_day d ss).
  { destruct (season_for_day d ss) as [ [ s | ] | e ] eqn:Hs.
    - destruct (season_for_day_some_inv d s ss Hs)
        as (pre & post & Heq & _ & Hm).
      assert (Hin : In s ss) by (rewrite Heq; apply in_or_app; right; now left).
      apply season_for_day_unique.
      + intros p Hp. apply Hok. now apply (Permutation_in _ (Permutation_sym Hperm)).
      + intros p Hp Hpm. symmetry. apply Huniq; try assumption.
        now apply (Permutation_in _ (Permutation_sym Hperm)).
      + now apply (Permutation_in _ Hperm).
      + exact Hm.
    - apply season_for_day_none.
      pose proof (season_for_day_none_inv d ss Hs) as Hall.
      rewrite Forall_forall in *. intros p Hp. apply Hall.
      now apply (Permutation_in _ (Permutation_sym Hperm)).
    - destruct (season_for_day_raise_inv d e ss Hs)
        as (pre & s & post & Heq & _ & Hm).
      assert (Hin : In s ss) by (rewrite Heq; apply in_or_app; right; now left).
      destruct (Hok s Hin) as [b Hb]. congruence. }
  split; [ exact Hlook | ].
  unfold day_price. now rewrite Hlook.
Qed.

Lemma order_irrelevant_without_overlap_witness :
  season_for_day (mkdate 2024 8 15) [summer; academic_year] =
  season_for_day (mkdate 2024 8 15) [academic_year; summer].
Proof.
  apply (order_irrelevant_without_overlap private_room (mkdate 2024 8 15)
           [academic_year; summer] [summer; academic_year]).
  - apply perm_swap.
  - intros p [<- | [<- | []]]; eexists; reflexivity.
  - intros p q [<- | [<- | []]] [<- | [<- | []]] Hp Hq;
      try reflexivity; discriminate.
Defined.

(** ** Longer stays *)



